(** * riscvDebug: register description and debug access of the RISC-V model

    A shallow embedding of [source/riscvDebug.c]: the integration support
    register catalogue and its traversal, the lazily built register tables
    ([getRegisters]), the view filter ([isRegVisible], [getNextRegister],
    [getNextGroup]), the accessor callbacks ([readPC], [writePC], [readCSR],
    [writeCSR], [writeDM], [writeDMStall]) and [riscvFreeRegInfo].

    Conventions.
    - [Uns32]/[Uns64] values and enumerations are [N]; loop counters are [nat].
    - A C array is a [list]; a pointer into an array is the index of the
      element it points to, a nullable pointer is an [option].
    - Headers that are not part of this unit ([riscvVariant.h],
      [riscvRegisters.h], ...) and the functions of other units are taken as
      parameters, bundled in the classes [ModelHeaders] and [Collaborators]. *)

From stdpp Require Import base numbers list strings pretty.

Open Scope N_scope.

(** ** Register groups *)

Definition riscvRegGroupId := nat.

Definition RV_RG_CORE        : riscvRegGroupId := 0%nat.
Definition RV_RG_FP          : riscvRegGroupId := 1%nat.
Definition RV_RG_V           : riscvRegGroupId := 2%nat.
Definition RV_RG_U_CSR       : riscvRegGroupId := 3%nat.
Definition RV_RG_S_CSR       : riscvRegGroupId := 4%nat.
Definition RV_RG_R_CSR       : riscvRegGroupId := 5%nat.
Definition RV_RG_M_CSR       : riscvRegGroupId := 6%nat.
Definition RV_RG_INTEGRATION : riscvRegGroupId := 7%nat.
Definition RV_RG_LAST        : riscvRegGroupId := 8%nat.

Record vmiRegGroup := { grp_name : option string }.

(** [groups[RV_RG_LAST+1]]: eight named groups and the zero entry that the
    designated initialisers leave at index [RV_RG_LAST]. *)
Definition groups : list vmiRegGroup :=
  [ {| grp_name := Some "Core" |};
    {| grp_name := Some "Floating_point" |};
    {| grp_name := Some "Vector" |};
    {| grp_name := Some "User_Control_and_Status" |};
    {| grp_name := Some "Supervisor_Control_and_Status" |};
    {| grp_name := Some "Reserved" |};
    {| grp_name := Some "Machine_Control_and_Status" |};
    {| grp_name := Some "Integration_support" |};
    {| grp_name := None |} ].

(** A [vmiRegGroupCP] is null or points at [groups[g]]. *)
Definition vmiRegGroupCP := option nat.

Definition RV_GROUP (g : riscvRegGroupId) : vmiRegGroupCP := Some g.

Definition RISCV_FPR0_INDEX : N := 33.
Definition RISCV_CSR0_INDEX : N := 65.
Definition RISCV_ISR0_INDEX : N := 0x1100.
Definition RISCV_V0_INDEX   : N := 0x2000.

(** Arithmetic on [Uns32] wraps. *)
Definition Uns32 (x : N) : N := x mod 2 ^ 32.

(** ** VMI types used by the descriptors *)

Inductive vmiRegAccess := vmi_RA_NONE | vmi_RA_R | vmi_RA_W | vmi_RA_RW.

Inductive vmiRegUsage := vmi_REG_NONE | vmi_REG_PC | vmi_REG_SP | vmi_REG_LR.

(** Raw storage handles ([vmiReg]); [VMI_NOREG] is the zero handle. *)
Inductive vmiReg :=
| VMI_NOREG
| RISCV_GPR (i : nat)
| RISCV_FPR (i : nat)
| RISCV_VREG (i : nat)
| RISCV_EA_TAG
| RISCV_DM
| RISCV_DM_STALL
| RISCV_COMMERCIAL
| RISCV_CSR_RAW (handle : N).

(** The callbacks this unit installs in descriptors. *)
Inductive vmiRegReadFn := CB_readPC | CB_readCSR.
Inductive vmiRegWriteFn := CB_writePC | CB_writeCSR | CB_writeDM | CB_writeDMStall.

#[global] Instance vmiRegAccess_eq_dec : EqDecision vmiRegAccess.
Proof. solve_decision. Defined.
#[global] Instance vmiRegUsage_eq_dec : EqDecision vmiRegUsage.
Proof. solve_decision. Defined.
#[global] Instance vmiReg_eq_dec : EqDecision vmiReg.
Proof. solve_decision. Defined.
#[global] Instance vmiRegReadFn_eq_dec : EqDecision vmiRegReadFn.
Proof. solve_decision. Defined.
#[global] Instance vmiRegWriteFn_eq_dec : EqDecision vmiRegWriteFn.
Proof. solve_decision. Defined.

(** The fields of [riscvCSRAttrs] this unit reads. *)
Record riscvCSRAttrs := {
  csr_name          : string;
  csr_desc          : option string;
  csr_csrNum        : N;
  csr_noSaveRestore : bool;
  csr_noTraceChange : bool
}.

(** What one successful call of [riscvGetCSRDetails] leaves in
    [csrDetails]. [cd_mode] is the privilege mode of the CSR (0..3). *)
Record riscvCSRDetails := {
  cd_attrs     : riscvCSRAttrs;
  cd_mode      : nat;
  cd_access    : vmiRegAccess;
  cd_raw       : vmiReg;
  cd_rdRaw     : bool;
  cd_wrRaw     : bool;
  cd_extension : N
}.

(** [vmiRegInfo], one register descriptor. *)
Record vmiRegInfo := {
  name          : option string;
  description   : option string;
  group         : vmiRegGroupCP;
  bits          : N;
  gdbIndex      : N;
  access        : vmiRegAccess;
  raw           : vmiReg;
  readCB        : option vmiRegReadFn;
  writeCB       : option vmiRegWriteFn;
  userData      : option riscvCSRAttrs;
  noSaveRestore : bool;
  noTraceChange : bool;
  extension     : N;
  usage         : vmiRegUsage
}.

(** An entry as [STYPE_CALLOC_N] leaves it. *)
Definition zeroRegInfo : vmiRegInfo :=
  {| name := None; description := None; group := None; bits := 0;
     gdbIndex := 0; access := vmi_RA_NONE; raw := VMI_NOREG;
     readCB := None; writeCB := None; userData := None;
     noSaveRestore := false; noTraceChange := false; extension := 0;
     usage := vmi_REG_NONE |}.

(** ** The processor *)

Record riscvConfig := {
  arch       : N;
  debug_mode : N;
  VLEN       : N
}.

(** A message passed to [vmiMessage]: severity, identifier suffix (after
    [CPU_PREFIX]) and the numeric arguments of the format. *)
Record vmiMsg := {
  msg_severity : string;
  msg_ident    : string;
  msg_args     : list N
}.

(** A [vmiRegInfoCP]: a pointer into one of the two tables of the
    processor, [regInfo[ri_normal]] at element [ri_idx]. *)
Record vmiRegInfoCP := { ri_normal : bool; ri_idx : nat }.

(** The processor structure, with the effects this unit has on its
    surroundings: the messages emitted and the blocks handed to
    [STYPE_FREE]. [regInfo0] is [regInfo[False]] and [regInfo1] is
    [regInfo[True]]. *)
Record riscv := {
  configInfo     : riscvConfig;
  regInfo0       : option (list vmiRegInfo);
  regInfo1       : option (list vmiRegInfo);
  artifactAccess : bool;
  smpChild       : option nat;
  pc             : N;
  messages       : list vmiMsg;
  freed          : list (list vmiRegInfo)
}.

Definition regInfo (r : riscv) (normal : bool) : option (list vmiRegInfo) :=
  if normal then regInfo1 r else regInfo0 r.

Definition set_regInfo (r : riscv) (normal : bool)
    (t : option (list vmiRegInfo)) : riscv :=
  {| configInfo := configInfo r;
     regInfo0 := if normal then regInfo0 r else t;
     regInfo1 := if normal then t else regInfo1 r;
     artifactAccess := artifactAccess r; smpChild := smpChild r;
     pc := pc r; messages := messages r; freed := freed r |}.

Definition set_artifactAccess (r : riscv) (b : bool) : riscv :=
  {| configInfo := configInfo r; regInfo0 := regInfo0 r;
     regInfo1 := regInfo1 r; artifactAccess := b; smpChild := smpChild r;
     pc := pc r; messages := messages r; freed := freed r |}.

Definition set_pc (r : riscv) (v : N) : riscv :=
  {| configInfo := configInfo r; regInfo0 := regInfo0 r;
     regInfo1 := regInfo1 r; artifactAccess := artifactAccess r;
     smpChild := smpChild r; pc := v; messages := messages r;
     freed := freed r |}.

Definition vmiMessage (r : riscv) (m : vmiMsg) : riscv :=
  {| configInfo := configInfo r; regInfo0 := regInfo0 r;
     regInfo1 := regInfo1 r; artifactAccess := artifactAccess r;
     smpChild := smpChild r; pc := pc r; messages := messages r ++ [m];
     freed := freed r |}.

Definition STYPE_FREE (r : riscv) (t : list vmiRegInfo) : riscv :=
  {| configInfo := configInfo r; regInfo0 := regInfo0 r;
     regInfo1 := regInfo1 r; artifactAccess := artifactAccess r;
     smpChild := smpChild r; pc := pc r; messages := messages r;
     freed := freed r ++ [t] |}.

(** ** Iteration helpers shared by the loops of this unit *)

(** The test of a pointer against null. *)
Definition notNull {A} (p : option A) : bool :=
  match p with Some _ => true | None => false end.

(** The scan that both [getNextISRDetails] and [getNextRegister] perform
    over a zero-terminated array: [rest] is the array from element [this]
    on; the scan stops with null at the first unnamed element and with
    [this] at the first named element that is kept. Running off the end of
    the array does not happen on a terminated table; it gives null. *)
Fixpoint scanTable {A} (named keep : A -> bool) (rest : list A) (this : nat)
    : option nat :=
  match rest with
  | [] => None
  | e :: rest' =>
      if named e then
        if keep e then Some this else scanTable named keep rest' (S this)
      else None
  end.

(** [while((x = next(..., x, ...))) { ... }] started from null: the
    pointers yielded before [next] returns null, with the state threaded
    through the calls. [None] when [fuel] calls did not reach null. *)
Fixpoint iterate {St P} (next : St -> option P -> St * option P)
    (fuel : nat) (s : St) (prev : option P) : option (St * list P) :=
  match fuel with
  | O => None
  | S n =>
      match next s prev with
      | (s', None) => Some (s', [])
      | (s', Some p) =>
          match iterate next n s' (Some p) with
          | Some (s'', ps) => Some (s'', p :: ps)
          | None => None
          end
      end
  end.

(** The positions of the kept elements of [l], where the first element
    of [l] has position [i]: what the scans are checked against. *)
Fixpoint keptIdx {A} (keep : A -> bool) (l : list A) (i : nat) : list nat :=
  match l with
  | [] => []
  | e :: l' => if keep e then i :: keptIdx keep l' (S i)
               else keptIdx keep l' (S i)
  end.

(** ** Integration support registers *)

Record isrDetails := {
  isr_name          : option string;
  isr_desc          : option string;
  isr_arch          : N;
  isr_index         : N;
  isr_bits          : N;
  isr_raw           : vmiReg;
  isr_readCB        : option vmiRegReadFn;
  isr_writeCB       : option vmiRegWriteFn;
  isr_access        : vmiRegAccess;
  isr_noTraceChange : bool;
  isr_DM            : N
}.

(** The entry [{0}]. *)
Definition zeroISR : isrDetails :=
  {| isr_name := None; isr_desc := None; isr_arch := 0; isr_index := 0;
     isr_bits := 0; isr_raw := VMI_NOREG; isr_readCB := None;
     isr_writeCB := None; isr_access := vmi_RA_NONE;
     isr_noTraceChange := false; isr_DM := 0 |}.

(** Constants of the model headers that are not part of this unit:
    architecture bits ([riscvVariant.h]), debug-mode levels, the number of
    vector registers and the indices of [ra] and [sp]. *)
Class ModelHeaders := {
  ISA_A       : N;
  ISA_I       : N;
  ISA_DF      : N;
  ISA_V       : N;
  RVDM_VECTOR : N;
  RVDM_HALT   : N;
  VREG_NUM    : nat;
  RV_REG_X_RA : nat;
  RV_REG_X_SP : nat
}.

Section IntegrationRegisters.
Context {H : ModelHeaders}.

Definition isRegs : list isrDetails :=
  [ {| isr_name := Some "LRSCAddress";
       isr_desc := Some "LR/SC active lock address";
       isr_arch := ISA_A; isr_index := 0; isr_bits := 0;
       isr_raw := RISCV_EA_TAG; isr_readCB := None; isr_writeCB := None;
       isr_access := vmi_RA_RW; isr_noTraceChange := false; isr_DM := 0 |};
    {| isr_name := Some "DM";
       isr_desc := Some "Debug mode active";
       isr_arch := 0; isr_index := 1; isr_bits := 8;
       isr_raw := RISCV_DM; isr_readCB := None;
       isr_writeCB := Some CB_writeDM;
       isr_access := vmi_RA_RW; isr_noTraceChange := false;
       isr_DM := RVDM_VECTOR |};
    {| isr_name := Some "DMStall";
       isr_desc := Some "Debug mode stalled";
       isr_arch := 0; isr_index := 2; isr_bits := 8;
       isr_raw := RISCV_DM_STALL; isr_readCB := None;
       isr_writeCB := Some CB_writeDMStall;
       isr_access := vmi_RA_RW; isr_noTraceChange := false;
       isr_DM := RVDM_HALT |};
    {| isr_name := Some "commercial";
       isr_desc := Some "Commercial feature in use";
       isr_arch := 0; isr_index := 3; isr_bits := 8;
       isr_raw := RISCV_COMMERCIAL; isr_readCB := None;
       isr_writeCB := None;
       isr_access := vmi_RA_R; isr_noTraceChange := false; isr_DM := 0 |};
    (* KEEP LAST *)
    zeroISR ].

(** The condition under which the loop of [getNextISRDetails] steps over
    a named entry. *)
Definition isrExcluded (r : riscv) (this : isrDetails) : bool :=
  negb (N.land (isr_arch this) (arch (configInfo r)) =? isr_arch this)
  || (debug_mode (configInfo r) <? isr_DM this).

Definition getNextISRDetails (r : riscv) (prev : option nat)
    (normal : bool) : option nat :=
  if normal then
    let this := match prev with Some p => S p | None => 0%nat end in
    scanTable (fun e => notNull (isr_name e))
              (fun e => negb (isrExcluded r e))
              (drop this isRegs) this
  else None.

(** The [while((isrDetails=getNextISRDetails(...)))] loops of
    [getRegisters]; one call per catalogue entry reaches null. *)
Definition visibleISRs (r : riscv) (normal : bool) : option (list nat) :=
  snd <$> iterate (fun (_ : unit) prev =>
                     (tt, getNextISRDetails r prev normal))
                  (length isRegs) tt None.

End IntegrationRegisters.

(** The view requested by the debugger interface ([gdbFrame]). *)
Inductive vmiRegInfoType := VMIRIT_NORMAL | VMIRIT_GPACKET | VMIRIT_PPACKET.

#[global] Instance vmiRegInfoType_eq_dec : EqDecision vmiRegInfoType.
Proof. solve_decision. Defined.

(** ** Collaborators *)

(** The course of one call of [riscvReadCSR] or [riscvWriteCSR], as far as
    this unit can observe it: the CSR code returns its [Bool], changes the
    processor, looks at the processor, or comes back into [readCSR] or
    [writeCSR] for another CSR (whose own delegated call runs as [inner])
    and continues with the result. *)
Inductive csrCall :=
| csrRet (ok : bool)
| csrStep (f : riscv -> riscv) (k : csrCall)
| csrInspect (k : riscv -> csrCall)
| csrReenter (inner : csrCall) (k : bool -> csrCall).

(** Functions of other units. Those that describe the variant read only
    the configuration of the processor, which this unit never changes.
    [riscvGetCSRDetails cfg normal] is the sequence of details that the
    successive calls [riscvGetCSRDetails(riscv, &csrDetails, &csrNum,
    normal)] deliver before the call that returns [False]. *)
Class Collaborators := {
  riscvGetXlenArch   : riscvConfig -> N;
  riscvGetFlenArch   : riscvConfig -> N;
  riscvGetXlenMode   : riscv -> N;
  riscvGetXRegName   : nat -> string;
  riscvGetFRegName   : nat -> string;
  riscvGetVRegName   : nat -> string;
  riscvGetCSRDetails : riscvConfig -> bool -> list riscvCSRDetails;
  riscvReadCSR       : option riscvCSRAttrs -> N -> csrCall;
  riscvWriteCSR      : option riscvCSRAttrs -> N -> csrCall;
  riscvSetDM         : riscv -> bool -> riscv;
  riscvSetDMStall    : riscv -> bool -> riscv
}.

Section Debug.
Context {H : ModelHeaders} {C : Collaborators}.

(** ** Register access functions *)

Definition getChild (r : riscv) : option nat := smpChild r.

(** A buffer is the little-endian number held by the eight bytes at
    [buffer]. [readPC] gives the [Bool] and the buffer after the store. *)
Definition readPC (r : riscv) (buffer : N) : bool * N :=
  let bits := riscvGetXlenArch (configInfo r) in
  let pc := pc r mod 2 ^ 64 in
  if bits =? 32
  then (true, (buffer mod 2 ^ 64 / 2 ^ 32) * 2 ^ 32 + pc mod 2 ^ 32)
  else (true, pc).

Definition writePC (r : riscv) (buffer : N) : bool * riscv :=
  let bits := riscvGetXlenMode r in
  let pc := if bits =? 32 then buffer mod 2 ^ 32 else buffer mod 2 ^ 64 in
  (true, set_pc r pc).

Definition writeDM (r : riscv) (buffer : N) : bool * riscv :=
  let DM := buffer mod 2 ^ 8 in
  (true, riscvSetDM r (negb (N.land DM 1 =? 0))).

Definition writeDMStall (r : riscv) (buffer : N) : bool * riscv :=
  let DMStall := buffer mod 2 ^ 8 in
  (true, riscvSetDMStall r (negb (N.land DMStall 1 =? 0))).

Definition getCSRAttrs (reg : vmiRegInfo) : option riscvCSRAttrs :=
  userData reg.

(** The body shared by [readCSR] and [writeCSR]: save the flag, set it,
    make the delegated call [run], put the saved value back. The third
    component of the result lists the values [artifactAccess] had at the
    steps of the delegated call. *)
Definition artifactCall (run : riscv -> bool * riscv * list bool)
    (r : riscv) : bool * riscv * list bool :=
  let old := artifactAccess r in
  let r1 := set_artifactAccess r true in
  let '(ok, r2, seen) := run r1 in
  (ok, set_artifactAccess r2 old, seen).

Fixpoint runCSR (c : csrCall) (r : riscv) : bool * riscv * list bool :=
  match c with
  | csrRet ok => (ok, r, [artifactAccess r])
  | csrStep f k =>
      let '(ok, r', seen) := runCSR k (f r) in
      (ok, r', artifactAccess r :: seen)
  | csrInspect k =>
      let '(ok, r', seen) := runCSR (k r) r in
      (ok, r', artifactAccess r :: seen)
  | csrReenter inner k =>
      let '(ok1, r1, seen1) := artifactCall (runCSR inner) r in
      let '(ok, r', seen) := runCSR (k ok1) r1 in
      (ok, r', artifactAccess r :: seen1 ++ seen)
  end.

Definition readCSR (r : riscv) (reg : vmiRegInfo) (buffer : N)
    : bool * riscv * list bool :=
  artifactCall (runCSR (riscvReadCSR (getCSRAttrs reg) buffer)) r.

Definition writeCSR (r : riscv) (reg : vmiRegInfo) (buffer : N)
    : bool * riscv * list bool :=
  artifactCall (runCSR (riscvWriteCSR (getCSRAttrs reg) buffer)) r.

(** The [Bool] that a call through a descriptor's callback returns. *)
Definition readResult (cb : vmiRegReadFn) (r : riscv) (reg : vmiRegInfo)
    (buffer : N) : bool :=
  match cb with
  | CB_readPC => fst (readPC r buffer)
  | CB_readCSR => fst (fst (readCSR r reg buffer))
  end.

Definition writeResult (cb : vmiRegWriteFn) (r : riscv) (reg : vmiRegInfo)
    (buffer : N) : bool :=
  match cb with
  | CB_writePC => fst (writePC r buffer)
  | CB_writeCSR => fst (fst (writeCSR r reg buffer))
  | CB_writeDM => fst (writeDM r buffer)
  | CB_writeDMStall => fst (writeDMStall r buffer)
  end.

Definition getGPRUsage (i : nat) : vmiRegUsage :=
  if decide (i = RV_REG_X_RA) then vmi_REG_LR
  else if decide (i = RV_REG_X_SP) then vmi_REG_SP
  else vmi_REG_NONE.

(** ** The register list *)

(** The locals of [getRegisters]. *)
Definition XLEN (r : riscv) : N := riscvGetXlenArch (configInfo r).

(** [riscvGetFlenArch(riscv) ? : XLEN] *)
Definition FLEN (r : riscv) : N :=
  if riscvGetFlenArch (configInfo r) =? 0 then XLEN r
  else riscvGetFlenArch (configInfo r).

Definition gprNum (r : riscv) (normal : bool) : nat :=
  if negb normal || negb (N.land (arch (configInfo r)) ISA_I =? 0)
  then 32%nat else 16%nat.

Definition fprNum (r : riscv) (normal : bool) : nat :=
  if negb normal || negb (N.land (arch (configInfo r)) ISA_DF =? 0)
  then 32%nat else 0%nat.

Definition vrNum (r : riscv) (normal : bool) : nat :=
  if normal && negb (N.land (arch (configInfo r)) ISA_V =? 0)
  then VREG_NUM else 0%nat.

(** The condition of the gdb workaround. *)
Definition gdbWidthMismatch (r : riscv) (normal : bool) : bool :=
  negb normal && negb (XLEN r =? FLEN r).

Definition msgURC (r : riscv) : vmiMsg :=
  {| msg_severity := "W"; msg_ident := "_URC";
     msg_args := [XLEN r; FLEN r; XLEN r] |}.

(** [FLEN] after the workaround. *)
Definition FLEN' (r : riscv) (normal : bool) : N :=
  if gdbWidthMismatch r normal then XLEN r else FLEN r.

Definition gprEntry (r : riscv) (i : nat) : vmiRegInfo :=
  {| name := Some (riscvGetXRegName i); description := None;
     group := RV_GROUP RV_RG_CORE; bits := XLEN r;
     gdbIndex := Uns32 (N.of_nat i);
     access := if decide (i = 0%nat) then vmi_RA_R else vmi_RA_RW;
     raw := RISCV_GPR i; readCB := None; writeCB := None;
     userData := None; noSaveRestore := false; noTraceChange := false;
     extension := 0; usage := getGPRUsage i |}.

(** [i] is the value the GPR loop left in [i]. *)
Definition pcEntry (r : riscv) (i : nat) : vmiRegInfo :=
  {| name := Some "pc"; description := None;
     group := RV_GROUP RV_RG_CORE; bits := XLEN r;
     gdbIndex := Uns32 (N.of_nat i); access := vmi_RA_RW;
     raw := VMI_NOREG; readCB := Some CB_readPC;
     writeCB := Some CB_writePC; userData := None;
     noSaveRestore := false; noTraceChange := false; extension := 0;
     usage := vmi_REG_PC |}.

Definition fprEntry (r : riscv) (normal : bool) (i : nat) : vmiRegInfo :=
  {| name := Some (riscvGetFRegName i); description := None;
     group := RV_GROUP RV_RG_FP; bits := FLEN' r normal;
     gdbIndex := Uns32 (N.of_nat i + RISCV_FPR0_INDEX);
     access := vmi_RA_RW; raw := RISCV_FPR i; readCB := None;
     writeCB := None; userData := None; noSaveRestore := false;
     noTraceChange := false; extension := 0; usage := vmi_REG_NONE |}.

Definition vrEntry (r : riscv) (i : nat) : vmiRegInfo :=
  {| name := Some (riscvGetVRegName i); description := None;
     group := RV_GROUP RV_RG_V; bits := VLEN (configInfo r);
     gdbIndex := Uns32 (N.of_nat i + RISCV_V0_INDEX);
     access := vmi_RA_RW; raw := RISCV_VREG i; readCB := None;
     writeCB := None; userData := None; noSaveRestore := false;
     noTraceChange := false; extension := 0; usage := vmi_REG_NONE |}.

Definition csrEntry (r : riscv) (csrDetails : riscvCSRDetails)
    : vmiRegInfo :=
  let attrs := cd_attrs csrDetails in
  {| name := Some (csr_name attrs); description := csr_desc attrs;
     group := RV_GROUP (RV_RG_U_CSR + cd_mode csrDetails)%nat;
     bits := XLEN r;
     gdbIndex := Uns32 (csr_csrNum attrs + RISCV_CSR0_INDEX);
     access := cd_access csrDetails; raw := cd_raw csrDetails;
     readCB := if cd_rdRaw csrDetails then None else Some CB_readCSR;
     writeCB := if cd_wrRaw csrDetails then None else Some CB_writeCSR;
     userData := Some attrs;
     noSaveRestore := csr_noSaveRestore attrs;
     noTraceChange := csr_noTraceChange attrs;
     extension := cd_extension csrDetails; usage := vmi_REG_NONE |}.

Definition isrEntry (r : riscv) (isrDetails : isrDetails) : vmiRegInfo :=
  {| name := isr_name isrDetails; description := isr_desc isrDetails;
     group := RV_GROUP RV_RG_INTEGRATION;
     bits := if isr_bits isrDetails =? 0 then XLEN r
             else isr_bits isrDetails;
     gdbIndex := Uns32 (isr_index isrDetails + RISCV_ISR0_INDEX);
     access := isr_access isrDetails; raw := isr_raw isrDetails;
     readCB := isr_readCB isrDetails; writeCB := isr_writeCB isrDetails;
     userData := None; noSaveRestore := false;
     noTraceChange := isr_noTraceChange isrDetails; extension := 0;
     usage := vmi_REG_NONE |}.

Definition gprEntries (r : riscv) (normal : bool) : list vmiRegInfo :=
  gprEntry r <$> seq 0 (gprNum r normal).

Definition fprEntries (r : riscv) (normal : bool) : list vmiRegInfo :=
  fprEntry r normal <$> seq 0 (fprNum r normal).

Definition vrEntries (r : riscv) (normal : bool) : list vmiRegInfo :=
  vrEntry r <$> seq 0 (vrNum r normal).

Definition csrEntries (r : riscv) (normal : bool) : list vmiRegInfo :=
  csrEntry r <$> riscvGetCSRDetails (configInfo r) normal.

(** The ISR loop: [this] points into [isRegs]. *)
Definition isrEntries (r : riscv) (normal : bool) : list vmiRegInfo :=
  (fun this => isrEntry r (default zeroISR (isRegs !! this)))
    <$> default [] (visibleISRs r normal).

(** The value of [regNum] before the allocation. *)
Definition regNum (r : riscv) (normal : bool) : nat :=
  (gprNum r normal + 1 + fprNum r normal + vrNum r normal
   + length (riscvGetCSRDetails (configInfo r) normal)
   + length (default [] (visibleISRs r normal)))%nat.

(** The block that [getRegisters] allocates and fills: the entries in the
    order of the fill loops, then the entry the allocation left zero. *)
Definition newRegisters (r : riscv) (normal : bool) : list vmiRegInfo :=
  gprEntries r normal ++ [pcEntry r (gprNum r normal)]
  ++ fprEntries r normal ++ vrEntries r normal
  ++ csrEntries r normal ++ isrEntries r normal
  ++ [zeroRegInfo].

Definition regHead (normal : bool) : vmiRegInfoCP :=
  {| ri_normal := normal; ri_idx := 0 |}.

Definition getRegisters (r : riscv) (normal : bool)
    : riscv * vmiRegInfoCP :=
  match regInfo r normal with
  | Some _ => (r, regHead normal)
  | None =>
      let r1 := if gdbWidthMismatch r normal
                then vmiMessage r (msgURC r) else r in
      (set_regInfo r1 normal (Some (newRegisters r normal)),
       regHead normal)
  end.

(** The descriptor a pointer points at. *)
Definition regAt (r : riscv) (reg : vmiRegInfoCP) : option vmiRegInfo :=
  regInfo r (ri_normal reg) ≫= (fun t => t !! ri_idx reg).

(** ** The view filter *)

Definition isCSRGroup (group : vmiRegGroupCP) : bool :=
  bool_decide (group = RV_GROUP RV_RG_U_CSR)
  || bool_decide (group = RV_GROUP RV_RG_S_CSR)
  || bool_decide (group = RV_GROUP RV_RG_R_CSR)
  || bool_decide (group = RV_GROUP RV_RG_M_CSR).

Definition isRegVisible (reg : vmiRegInfo) (type : vmiRegInfoType) : bool :=
  match type with
  | VMIRIT_NORMAL => true
  | VMIRIT_GPACKET => negb (isCSRGroup (group reg))
  | _ => isCSRGroup (group reg)
  end.

(** The [do ... while] of [getNextRegister]. From null, [reg] becomes the
    head of the list and the loop goes on from there while [reg] is not
    visible; from [reg], the loop is the scan of the entries after it.
    A pointer into a list that is not there gives null. *)
Definition getNextRegister (r : riscv) (reg : option vmiRegInfoCP)
    (type : vmiRegInfoType) : riscv * option vmiRegInfoCP :=
  let named := fun e : vmiRegInfo => notNull (name e) in
  let visible := fun e : vmiRegInfo => isRegVisible e type in
  match reg with
  | None =>
      match getChild r with
      | Some _ => (r, None)
      | None =>
          let '(r', head) :=
            getRegisters r (bool_decide (type = VMIRIT_NORMAL)) in
          match regInfo r' (ri_normal head) with
          | Some (e :: rest) =>
              (r', if visible e then Some head
                   else Build_vmiRegInfoCP (ri_normal head)
                          <$> scanTable named visible rest 1)
          | _ => (r', None)
          end
      end
  | Some reg =>
      match regInfo r (ri_normal reg) with
      | Some t =>
          (r, Build_vmiRegInfoCP (ri_normal reg)
                <$> scanTable named visible
                      (drop (S (ri_idx reg)) t) (S (ri_idx reg)))
      | None => (r, None)
      end
  end.

(** The loop of [isGroupSupported]; [None] when [fuel] calls of
    [getNextRegister] reached neither the group nor null. *)
Fixpoint isGroupSupportedLoop (fuel : nat) (r : riscv)
    (info : option vmiRegInfoCP) (grp : vmiRegGroupCP)
    : option (riscv * bool) :=
  match fuel with
  | O => None
  | S n =>
      match getNextRegister r info VMIRIT_NORMAL with
      | (r', None) => Some (r', false)
      | (r', Some info') =>
          if decide (regAt r' info' ≫= group = grp)
          then Some (r', true)
          else isGroupSupportedLoop n r' (Some info') grp
      end
  end.

(** One call of [getNextRegister] per entry of the list and one more. *)
Definition isGroupSupported (r : riscv) (grp : vmiRegGroupCP)
    : option (riscv * bool) :=
  isGroupSupportedLoop (S (length (newRegisters r true))) r None grp.

(** The [do ... while] of [getNextGroup] from a group pointer on: [rest]
    is [groups] from element [this] on. *)
Fixpoint nextGroupScan (r : riscv) (rest : list vmiRegGroup) (this : nat)
    : option (riscv * vmiRegGroupCP) :=
  match rest with
  | [] => Some (r, None)
  | g :: rest' =>
      if notNull (grp_name g) then
        match isGroupSupported r (Some this) with
        | Some (r', true) => Some (r', Some this)
        | Some (r', false) => nextGroupScan r' rest' (S this)
        | None => None
        end
      else Some (r, None)
  end.

Definition getNextGroup (r : riscv) (grp : vmiRegGroupCP)
    : option (riscv * vmiRegGroupCP) :=
  match grp with
  | None =>
      match isGroupSupported r (Some 0%nat) with
      | Some (r', true) => Some (r', Some 0%nat)
      | Some (r', false) => nextGroupScan r' (drop 1 groups) 1
      | None => None
      end
  | Some g => nextGroupScan r (drop (S g) groups) (S g)
  end.

Definition riscvRegGroup (r : riscv) (prev : vmiRegGroupCP) :=
  getNextGroup r prev.

Definition riscvRegInfo (r : riscv) (prev : option vmiRegInfoCP)
    (gdbFrame : vmiRegInfoType) :=
  getNextRegister r prev gdbFrame.

(** One pass of the loop of [riscvFreeRegInfo]. *)
Definition freeRegInfoSlot (r : riscv) (i : bool) : riscv :=
  match regInfo r i with
  | Some t => set_regInfo (STYPE_FREE r t) i None
  | None => r
  end.

Definition riscvFreeRegInfo (r : riscv) : riscv :=
  freeRegInfoSlot (freeRegInfoSlot r false) true.

(** ** Enumerations built from the iteration entry points *)

(** The pointers [riscvRegInfo] yields for a view, from null until it
    returns null, and the processor afterwards. *)
Definition registerWalk (fuel : nat) (r : riscv) (type : vmiRegInfoType)
    : option (riscv * list vmiRegInfoCP) :=
  iterate (fun s prev => getNextRegister s prev type) fuel r None.

(** The descriptors yielded for a view: the walk is given one call per
    entry of either list and one more. *)
Definition registersOfView (r : riscv) (type : vmiRegInfoType)
    : option (list vmiRegInfo) :=
  match registerWalk (S (length (newRegisters r true)
                         + length (newRegisters r false))) r type with
  | Some (r', ps) => Some (omap (regAt r') ps)
  | None => None
  end.

(** The cached lists are the ones [getRegisters] builds. *)
Definition regInfoBuilt (r : riscv) : Prop :=
  forall normal t, regInfo r normal = Some t -> t = newRegisters r normal.

End Debug.

(** ** Kinds of descriptor, as a reader of a register list tells them *)

Definition isGeneralReg (e : vmiRegInfo) : bool :=
  bool_decide (group e = RV_GROUP RV_RG_CORE)
  && negb (bool_decide (usage e = vmi_REG_PC)).

Definition isFloatReg (e : vmiRegInfo) : bool :=
  bool_decide (group e = RV_GROUP RV_RG_FP).

Definition isVectorReg (e : vmiRegInfo) : bool :=
  bool_decide (group e = RV_GROUP RV_RG_V).

(** The six runs of a register list, in fill order, each with its own
    range of [gdbIndex]. *)
Definition regBands {H : ModelHeaders} {C : Collaborators} (r : riscv)
    (normal : bool) : list (list vmiRegInfo) :=
  [ gprEntries r normal; [pcEntry r (gprNum r normal)];
    fprEntries r normal; vrEntries r normal;
    csrEntries r normal; isrEntries r normal ].

(** The CSR code never assigns [artifactAccess] itself. *)
Fixpoint csrKeepsFlag (c : csrCall) : Prop :=
  match c with
  | csrRet _ => True
  | csrStep f k =>
      (forall r, artifactAccess (f r) = artifactAccess r) /\ csrKeepsFlag k
  | csrInspect k => forall r, csrKeepsFlag (k r)
  | csrReenter inner k => csrKeepsFlag inner /\ forall ok, csrKeepsFlag (k ok)
  end.

(** A processor whose lists were never built. *)
Definition neverBuilt (r : riscv) : riscv :=
  set_regInfo (set_regInfo r false None) true None.

(** ** A concrete variant, for evaluation *)

(** Architecture bits by letter as in [misa]; a 32-bit variant with two
    CSRs, [fflags] (user) and [mstatus] (machine). *)
Definition exHeaders : ModelHeaders :=
  {| ISA_A := 0x1; ISA_I := 0x100; ISA_DF := 0x28; ISA_V := 0x200000;
     RVDM_VECTOR := 1; RVDM_HALT := 3; VREG_NUM := 32;
     RV_REG_X_RA := 1; RV_REG_X_SP := 2 |}.

Definition exCSRs : list riscvCSRDetails :=
  [ {| cd_attrs := {| csr_name := "fflags"; csr_desc := None;
                      csr_csrNum := 0x001; csr_noSaveRestore := false;
                      csr_noTraceChange := false |};
       cd_mode := 0; cd_access := vmi_RA_RW; cd_raw := VMI_NOREG;
       cd_rdRaw := false; cd_wrRaw := false; cd_extension := 0 |};
    {| cd_attrs := {| csr_name := "mstatus"; csr_desc := None;
                      csr_csrNum := 0x300; csr_noSaveRestore := false;
                      csr_noTraceChange := false |};
       cd_mode := 3; cd_access := vmi_RA_RW; cd_raw := RISCV_CSR_RAW 0x300;
       cd_rdRaw := true; cd_wrRaw := false; cd_extension := 0 |} ].

(** A CSR read that fails while the program counter is zero and otherwise
    reads another CSR on the way; a CSR write that succeeds. *)
Definition exReadCSR (attrs : option riscvCSRAttrs) (buffer : N) : csrCall :=
  csrInspect (fun r =>
    if pc r =? 0 then csrRet false
    else csrReenter (csrStep (fun r => set_pc r (pc r + 4)) (csrRet true))
                    (fun ok => csrRet ok)).

Definition exWriteCSR (attrs : option riscvCSRAttrs) (buffer : N) : csrCall :=
  csrStep (fun r => set_pc r buffer) (csrRet true).

Definition exCollaborators : Collaborators :=
  {| riscvGetXlenArch := fun _ => 32;
     riscvGetFlenArch := fun cfg =>
       if negb (N.land (arch cfg) 0x8 =? 0) then 64
       else if negb (N.land (arch cfg) 0x20 =? 0) then 32 else 0;
     riscvGetXlenMode := fun _ => 32;
     riscvGetXRegName := fun i => "x" +:+ pretty i;
     riscvGetFRegName := fun i => "f" +:+ pretty i;
     riscvGetVRegName := fun i => "v" +:+ pretty i;
     riscvGetCSRDetails := fun _ _ => exCSRs;
     riscvReadCSR := exReadCSR;
     riscvWriteCSR := exWriteCSR;
     riscvSetDM := fun r _ => r;
     riscvSetDMStall := fun r _ => r |}.

Definition exProcessor (a : N) (child : option nat) : riscv :=
  {| configInfo := {| arch := a; debug_mode := 0; VLEN := 0 |};
     regInfo0 := None; regInfo1 := None; artifactAccess := false;
     smpChild := child; pc := 0; messages := []; freed := [] |}.

(** RV32IA: base integer and atomics, no floating point. *)
Definition exRV32IA : riscv := exProcessor 0x101 None.

(** RV32IFD: floating point registers of 64 bits beside 32-bit GPRs. *)
Definition exRV32IFD : riscv := exProcessor 0x128 None.

(** A container with a child. *)
Definition exCluster : riscv := exProcessor 0x101 (Some 0%nat).

(** Whether some descriptor of [body] belongs to the group [grp]: what
    the loop of [isGroupSupported] is checked against. *)
Definition groupPresent (body : list vmiRegInfo) (grp : vmiRegGroupCP)
    : bool :=
  existsb (fun e => bool_decide (group e = grp)) body.

(** * Properties *)

(** ** The scan and the iteration *)

Section Scan.
Context {A : Type} (named keep : A -> bool).

Lemma scanTable_head (l : list A) (z : A) (tl : list A) (i : nat) :
  Forall (fun e => named e = true) l -> named z = false ->
  scanTable named keep (l ++ z :: tl) i = head (keptIdx keep l i).
Proof.
  intros Hl Hz. revert i.
  induction Hl as [|e l He _ IH]; intros i; simpl.
  - by rewrite Hz.
  - rewrite He. destruct (keep e); [done | apply IH].
Qed.

Lemma keptIdx_bounds (l : list A) (i j : nat) :
  j ∈ keptIdx keep l i -> (i <= j < i + length l)%nat.
Proof.
  revert i. induction l as [|e l IH]; intros i; simpl.
  - by intros ?%elem_of_nil.
  - destruct (keep e).
    + intros [->|Hj%IH]%elem_of_cons; lia.
    + intros Hj%IH; lia.
Qed.

Lemma keptIdx_tail (l : list A) (i j : nat) (rest : list nat) :
  keptIdx keep l i = j :: rest ->
  rest = keptIdx keep (drop (S (j - i)) l) (S j).
Proof.
  revert i. induction l as [|e l IH]; intros i; simpl; [done|].
  destruct (keep e).
  - intros [= <- <-]. by rewrite Nat.sub_diag, drop_0.
  - intros Hk. pose proof (keptIdx_bounds l (S i) j) as Hb.
    rewrite Hk in Hb. specialize (Hb ltac:(left)).
    rewrite (IH _ Hk). replace (j - i)%nat with (S (j - S i)) by lia.
    done.
Qed.

Lemma keptIdx_lookup (pre l post : list A) :
  omap (fun j => (pre ++ l ++ post) !! j) (keptIdx keep l (length pre))
  = List.filter keep l.
Proof.
  revert pre. induction l as [|e l IH]; intros pre; simpl; [done|].
  specialize (IH (pre ++ [e])).
  rewrite length_app, Nat.add_1_r, <- app_assoc in IH. simpl in IH.
  destruct (keep e); simpl; [|done].
  rewrite list_lookup_middle by done. simpl. f_equal. exact IH.
Qed.

(** An iteration whose [next] is the scan of a terminated table yields
    the positions of the kept entries, given one call per entry and one
    more. *)
Lemma iterate_scan {St P} (ptr : nat -> P)
    (next : St -> option P -> St * option P) (s : St)
    (l : list A) (z : A) :
  Forall (fun e => named e = true) l -> named z = false ->
  next s None = (s, ptr <$> scanTable named keep (l ++ [z]) 0) ->
  (forall n, next s (Some (ptr n))
             = (s, ptr <$> scanTable named keep
                             (drop (S n) (l ++ [z])) (S n))) ->
  forall fuel k prev,
    (prev = None /\ k = 0%nat) \/ (exists n, prev = Some (ptr n) /\ k = S n) ->
    (k <= length l)%nat -> (length l - k < fuel)%nat ->
    iterate next fuel s prev
    = Some (s, ptr <$> keptIdx keep (drop k l) k).
Proof.
  intros Hl Hz Hnone Hsome fuel.
  induction fuel as [|n IH]; intros k prev Hk Hle Hfuel; [lia|].
  assert (Hnext : next s prev
                  = (s, ptr <$> scanTable named keep
                                  (drop k (l ++ [z])) k)).
  { destruct Hk as [[-> ->]|(m & -> & ->)]; [by rewrite drop_0|done]. }
  simpl. rewrite Hnext, drop_app_le by done.
  rewrite scanTable_head; [|by apply Forall_drop|done].
  destruct (keptIdx keep (drop k l) k) as [|j rest] eqn:Hkept; [done|].
  simpl.
  pose proof (keptIdx_bounds (drop k l) k j) as Hb.
  rewrite Hkept, length_drop in Hb. specialize (Hb ltac:(left)).
  apply keptIdx_tail in Hkept. rewrite drop_drop in Hkept.
  replace (k + S (j - k))%nat with (S j) in Hkept by lia.
  rewrite (IH (S j) (Some (ptr j))); [by rewrite Hkept| |lia|lia].
  right. by exists j.
Qed.

Lemma iterate_first {St P} (next : St -> option P -> St * option P)
    (fuel : nat) (s s1 : St) (x : option P) :
  next s None = (s1, x) -> next s1 None = (s1, x) ->
  iterate next (S fuel) s None = iterate next (S fuel) s1 None.
Proof. intros Hs Hs1. simpl. by rewrite Hs, Hs1. Qed.

End Scan.

Section ScanMembership.
Context {A : Type} (keep : A -> bool).

Lemma keptIdx_elem (l : list A) (i j : nat) :
  j ∈ keptIdx keep l i
  <-> (i <= j)%nat /\ exists e, l !! (j - i)%nat = Some e /\ keep e = true.
Proof.
  revert i. induction l as [|e l IH]; intros i; simpl.
  - split; [by intros ?%elem_of_nil | by intros (_ & ? & ? & _)].
  - assert (Hrec : j ∈ keptIdx keep l (S i)
                   <-> (i < j)%nat
                       /\ exists e', (e :: l) !! (j - i)%nat = Some e'
                                     /\ keep e' = true).
    { rewrite IH. split.
      - intros (Hle & e' & Hlk & Hk). split; [lia|]. exists e'.
        replace (j - i)%nat with (S (j - S i)) by lia. done.
      - intros (Hlt & e' & Hlk & Hk). split; [lia|]. exists e'.
        replace (j - i)%nat with (S (j - S i)) in Hlk by lia. done. }
    destruct (keep e) eqn:He.
    + rewrite elem_of_cons, Hrec. split.
      * intros [->|(Hlt & Hex)]; [|split; [lia|done]].
        split; [lia|]. exists e. by rewrite Nat.sub_diag.
      * intros (Hle & e' & Hlk & Hk).
        destruct (decide (j = i)) as [->|Hne]; [by left|right].
        split; [lia|]. by exists e'.
    + rewrite Hrec. split.
      * intros (Hlt & Hex). split; [lia|done].
      * intros (Hle & e' & Hlk & Hk).
        destruct (decide (j = i)) as [->|Hne].
        -- rewrite Nat.sub_diag in Hlk. simpl in Hlk. congruence.
        -- split; [lia|]. by exists e'.
Qed.

End ScanMembership.

(** ** Integration support register traversal *)

Section IntegrationRegisterProperties.
Context {H : ModelHeaders}.

Lemma isRegs_terminated : isRegs = take 4 isRegs ++ [zeroISR].
Proof. reflexivity. Qed.

Lemma visibleISRs_normal (r : riscv) :
  visibleISRs r true
  = Some (keptIdx (fun e => negb (isrExcluded r e)) (take 4 isRegs) 0).
Proof.
  unfold visibleISRs.
  rewrite (iterate_scan (fun e => notNull (isr_name e))
             (fun e => negb (isrExcluded r e)) id _ tt
             (take 4 isRegs) zeroISR) with (k := 0%nat);
    [by rewrite drop_0, list_fmap_id| | | | |by left|simpl; lia|simpl; lia].
  - repeat constructor.
  - done.
  - by rewrite option_fmap_id, <- isRegs_terminated.
  - intros n. by rewrite option_fmap_id, <- isRegs_terminated.
Qed.

Lemma visibleISRs_gdb (r : riscv) : visibleISRs r false = Some [].
Proof. reflexivity. Qed.

Lemma isrExcluded_spec (r : riscv) (e : isrDetails) :
  isrExcluded r e = true
  <-> N.land (isr_arch e) (arch (configInfo r)) <> isr_arch e
      \/ debug_mode (configInfo r) < isr_DM e.
Proof.
  unfold isrExcluded.
  rewrite orb_true_iff, negb_true_iff, N.eqb_neq, N.ltb_lt. done.
Qed.

(** C7. In the traversal of the integration support registers with
    [normal] set, started from null and continued until null, a named
    catalogue entry is passed over exactly when its architecture bits are
    not all present in the configured architecture or the configured
    debug mode is below the entry's [DM]; the entries yielded come in
    catalogue order. With [normal] clear, every call returns null and
    the traversal yields nothing. *)
Theorem getNextISRDetails_skips (r : riscv) :
  (forall prev, getNextISRDetails r prev false = None)
  /\ visibleISRs r false = Some []
  /\ exists yielded,
      visibleISRs r true = Some yielded
      /\ yielded = keptIdx (fun e => negb (isrExcluded r e))
                           (take 4 isRegs) 0
      /\ forall i e,
          isRegs !! i = Some e -> isr_name e <> None ->
          (i ∉ yielded
           <-> N.land (isr_arch e) (arch (configInfo r)) <> isr_arch e
               \/ debug_mode (configInfo r) < isr_DM e).
Proof.
  split; [done|]. split; [done|].
  eexists. split; [apply visibleISRs_normal|]. split; [done|].
  intros i e Hi Hname.
  rewrite <- isrExcluded_spec, keptIdx_elem, Nat.sub_0_r.
  assert (Hi4 : take 4 isRegs !! i = Some e).
  { rewrite isRegs_terminated in Hi.
    apply lookup_app_Some in Hi as [Hi|[_ Hi]]; [done|].
    apply list_lookup_singleton_Some in Hi as [_ <-]. done. }
  split.
  - intros Hnot. destruct (isrExcluded r e) eqn:He; [done|].
    exfalso. apply Hnot. split; [lia|]. exists e. by rewrite He.
  - intros He (_ & e' & He' & Hk). rewrite Hi4 in He'.
    injection He' as <-. by rewrite He in Hk.
Qed.

End IntegrationRegisterProperties.

(** ** The register lists *)

Section RegisterListProperties.
Context {H : ModelHeaders} {C : Collaborators}.

(** The list built depends on the processor through its configuration
    only. *)
Lemma newRegisters_config (r r' : riscv) (normal : bool) :
  configInfo r' = configInfo r ->
  newRegisters r' normal = newRegisters r normal.
Proof.
  intros Hcfg.
  unfold newRegisters, gprEntries, fprEntries, vrEntries, csrEntries,
    isrEntries, gprEntry, pcEntry, fprEntry, vrEntry, csrEntry, isrEntry,
    gprNum, fprNum, vrNum, FLEN', gdbWidthMismatch, FLEN, XLEN,
    visibleISRs, getNextISRDetails, isrExcluded.
  by rewrite Hcfg.
Qed.

Lemma regInfo_set_regInfo (r : riscv) (normal b : bool) t :
  regInfo (set_regInfo r normal t) b
  = if decide (b = normal) then t else regInfo r b.
Proof. by destruct normal, b. Qed.

(** What a call of [getRegisters] leaves behind. *)
Lemma getRegisters_spec (r : riscv) (normal : bool) :
  regInfoBuilt r ->
  (getRegisters r normal).2 = regHead normal
  /\ regInfo (getRegisters r normal).1 normal
     = Some (newRegisters r normal)
  /\ regInfo (getRegisters r normal).1 (negb normal)
     = regInfo r (negb normal)
  /\ configInfo (getRegisters r normal).1 = configInfo r
  /\ smpChild (getRegisters r normal).1 = smpChild r
  /\ regInfoBuilt (getRegisters r normal).1.
Proof.
  intros Hb. unfold getRegisters.
  destruct (regInfo r normal) as [t|] eqn:Ht; simpl.
  - rewrite Ht, (Hb _ _ Ht). done.
  - assert (Hcfg : configInfo
              (set_regInfo
                 (if gdbWidthMismatch r normal
                  then vmiMessage r (msgURC r) else r)
                 normal (Some (newRegisters r normal)))
            = configInfo r) by by destruct (gdbWidthMismatch r normal).
    rewrite !regInfo_set_regInfo.
    repeat split; try done.
    + by rewrite decide_True.
    + rewrite decide_False by by destruct normal.
      by destruct (gdbWidthMismatch r normal), normal.
    + by destruct (gdbWidthMismatch r normal).
    + intros b t.
      rewrite regInfo_set_regInfo, (newRegisters_config r _ b Hcfg).
      case_decide as Hbn; [naive_solver|].
      intros Hr. apply (Hb b).
      by destruct (gdbWidthMismatch r normal), b.
Qed.

(** The list fills the allocation of [regNum+1] entries. *)
Lemma newRegisters_length (r : riscv) (normal : bool) :
  length (newRegisters r normal) = S (regNum r normal).
Proof.
  unfold newRegisters, regNum, gprEntries, fprEntries, vrEntries,
    csrEntries, isrEntries.
  rewrite !length_app, !length_fmap, !length_seq. simpl. lia.
Qed.

Lemma gprNum_cases (r : riscv) (normal : bool) :
  gprNum r normal = 32%nat \/ gprNum r normal = 16%nat.
Proof. unfold gprNum. case_match; auto. Qed.

Lemma gprEntries_lookup (r : riscv) (normal : bool) (i : nat) :
  (i < gprNum r normal)%nat ->
  newRegisters r normal !! i = Some (gprEntry r i).
Proof.
  intros Hi. unfold newRegisters, gprEntries.
  rewrite lookup_app_l by by rewrite length_fmap, length_seq.
  rewrite list_lookup_fmap, lookup_seq_lt by done. done.
Qed.

(** *** Which entries are of which kind *)

Lemma filter_all {A} (P : A -> bool) (l : list A) :
  (forall x, x ∈ l -> P x = true) -> List.filter P l = l.
Proof.
  induction l as [|x l IH]; intros HP; simpl; [done|].
  rewrite (HP x) by left. f_equal. apply IH.
  intros y Hy. apply HP. by right.
Qed.

Lemma filter_none {A} (P : A -> bool) (l : list A) :
  (forall x, x ∈ l -> P x = false) -> List.filter P l = [].
Proof.
  induction l as [|x l IH]; intros HP; simpl; [done|].
  rewrite (HP x) by left. apply IH.
  intros y Hy. apply HP. by right.
Qed.

Ltac in_run :=
  repeat match goal with
    | Hin : _ ∈ _ ++ _ |- _ => apply elem_of_app in Hin as [Hin|Hin]
    | Hin : _ ∈ _ <$> _ |- _ =>
        apply list_elem_of_fmap in Hin as (? & -> & Hin)
    | Hin : _ ∈ [_] |- _ => apply list_elem_of_singleton in Hin as ->
    end.

Ltac kind_of :=
  unfold gprEntries, fprEntries, vrEntries, csrEntries, isrEntries;
  intros ? Hin; in_run;
  unfold isGeneralReg, isFloatReg, isVectorReg, isCSRGroup, RV_GROUP,
    RV_RG_CORE, RV_RG_FP, RV_RG_V, RV_RG_U_CSR, RV_RG_S_CSR, RV_RG_R_CSR,
    RV_RG_M_CSR, RV_RG_INTEGRATION;
  simpl; unfold getGPRUsage;
  repeat first [ case_bool_decide | case_decide ];
  simplify_eq; try done; try lia.

Lemma general_run (r : riscv) (normal : bool) :
  List.filter isGeneralReg (newRegisters r normal) = gprEntries r normal.
Proof.
  unfold newRegisters. rewrite !List.filter_app.
  rewrite (filter_all _ (gprEntries r normal)) by kind_of.
  rewrite (filter_none _ [pcEntry _ _]) by kind_of.
  rewrite (filter_none _ (fprEntries r normal)) by kind_of.
  rewrite (filter_none _ (vrEntries r normal)) by kind_of.
  rewrite (filter_none _ (csrEntries r normal)) by kind_of.
  rewrite (filter_none _ (isrEntries r normal)) by kind_of.
  rewrite (filter_none _ [zeroRegInfo]) by kind_of.
  by rewrite !app_nil_r.
Qed.

Lemma float_run (r : riscv) (normal : bool) :
  List.filter isFloatReg (newRegisters r normal) = fprEntries r normal.
Proof.
  unfold newRegisters. rewrite !List.filter_app.
  rewrite (filter_none _ (gprEntries r normal)) by kind_of.
  rewrite (filter_none _ [pcEntry _ _]) by kind_of.
  rewrite (filter_all _ (fprEntries r normal)) by kind_of.
  rewrite (filter_none _ (vrEntries r normal)) by kind_of.
  rewrite (filter_none _ (csrEntries r normal)) by kind_of.
  rewrite (filter_none _ (isrEntries r normal)) by kind_of.
  rewrite (filter_none _ [zeroRegInfo]) by kind_of.
  by rewrite !app_nil_r.
Qed.

Lemma vector_run (r : riscv) (normal : bool) :
  List.filter isVectorReg (newRegisters r normal) = vrEntries r normal.
Proof.
  unfold newRegisters. rewrite !List.filter_app.
  rewrite (filter_none _ (gprEntries r normal)) by kind_of.
  rewrite (filter_none _ [pcEntry _ _]) by kind_of.
  rewrite (filter_none _ (fprEntries r normal)) by kind_of.
  rewrite (filter_all _ (vrEntries r normal)) by kind_of.
  rewrite (filter_none _ (csrEntries r normal)) by kind_of.
  rewrite (filter_none _ (isrEntries r normal)) by kind_of.
  rewrite (filter_none _ [zeroRegInfo]) by kind_of.
  by rewrite !app_nil_r.
Qed.

Lemma general_position (r : riscv) (normal : bool) (i : nat) e :
  newRegisters r normal !! i = Some e -> isGeneralReg e = true ->
  (i < gprNum r normal)%nat.
Proof.
  intros Hi Hg. destruct (decide (i < gprNum r normal)%nat); [done|].
  exfalso. unfold newRegisters in Hi.
  rewrite lookup_app_r in Hi
    by (unfold gprEntries; rewrite length_fmap, length_seq; lia).
  apply list_elem_of_lookup_2 in Hi. revert Hg.
  enough (isGeneralReg e = false) as -> by done.
  revert e Hi. kind_of.
Qed.

(** C6. Whichever list [getRegisters] is asked for, its general
    register descriptors are its first [gprNum] entries, [x0], [x1], ...
    in order; the one at index 0 is read-only and every other one is
    read-write. *)
Theorem getRegisters_gpr_access (r : riscv) (normal : bool) :
  regInfoBuilt r ->
  exists t,
    regInfo (getRegisters r normal).1 normal = Some t
    /\ (forall i, (i < gprNum r normal)%nat ->
                  exists e, t !! i = Some e /\ isGeneralReg e = true
                            /\ raw e = RISCV_GPR i
                            /\ gdbIndex e = N.of_nat i)
    /\ (forall i e, t !! i = Some e -> isGeneralReg e = true ->
                    access e = if decide (i = 0%nat) then vmi_RA_R
                               else vmi_RA_RW).
Proof.
  intros Hb. exists (newRegisters r normal).
  destruct (getRegisters_spec r normal Hb) as (_ & Ht & _).
  split; [done|]. split.
  - intros i Hi. exists (gprEntry r i).
    rewrite gprEntries_lookup by done. repeat split; try done.
    + unfold isGeneralReg. simpl. unfold getGPRUsage.
      by repeat case_decide.
    + simpl. unfold Uns32. apply N.mod_small.
      destruct (gprNum_cases r normal); lia.
  - intros i e Hi Hg.
    pose proof (general_position r normal i e Hi Hg) as Hlt.
    rewrite gprEntries_lookup in Hi by done. by injection Hi as <-.
Qed.

(** *** Register counts *)

(** C1, as the code has it. The list built holds [gprNum] general
    registers, [fprNum] floating point registers and [vrNum] vector
    registers, where: for the gdb list ([normal] clear) there are always
    32 general and 32 floating point registers and no vector registers;
    for the normal list there are 32 general registers when the base
    integer extension [I] is present and 16 otherwise, 32 floating point
    registers when [D] or [F] is present and none otherwise, and
    [VREG_NUM] vector registers when [V] is present and none otherwise. *)
Theorem getRegisters_counts (r : riscv) (normal : bool) :
  regInfoBuilt r ->
  exists t,
    regInfo (getRegisters r normal).1 normal = Some t
    /\ length (List.filter isGeneralReg t) = gprNum r normal
    /\ length (List.filter isFloatReg t) = fprNum r normal
    /\ length (List.filter isVectorReg t) = vrNum r normal
    /\ gprNum r normal
       = (if normal
          then if decide (N.land (arch (configInfo r)) ISA_I = 0%N)
               then 16 else 32
          else 32)%nat
    /\ fprNum r normal
       = (if normal
          then if decide (N.land (arch (configInfo r)) ISA_DF = 0%N)
               then 0 else 32
          else 32)%nat
    /\ vrNum r normal
       = (if normal
          then if decide (N.land (arch (configInfo r)) ISA_V = 0%N)
               then 0 else VREG_NUM
          else 0)%nat.
Proof.
  intros Hb. exists (newRegisters r normal).
  destruct (getRegisters_spec r normal Hb) as (_ & Ht & _).
  split; [done|].
  rewrite general_run, float_run, vector_run.
  unfold gprEntries, fprEntries, vrEntries.
  rewrite !length_fmap, !length_seq.
  repeat split; try done.
  all: unfold gprNum, fprNum, vrNum; destruct normal; simpl; try done.
  all: case_decide as Hz; [by rewrite Hz|].
  all: by apply N.eqb_neq in Hz as ->.
Qed.

(** *** Width of the floating point registers *)

Lemma getRegisters_messages (r : riscv) (normal : bool) :
  messages (getRegisters r normal).1
  = match regInfo r normal with
    | Some _ => messages r
    | None => if gdbWidthMismatch r normal
              then messages r ++ [msgURC r] else messages r
    end.
Proof.
  unfold getRegisters. destruct (regInfo r normal); [done|].
  by destruct (gdbWidthMismatch r normal).
Qed.

Lemma float_bits (r : riscv) (normal : bool) e :
  e ∈ newRegisters r normal -> isFloatReg e = true ->
  bits e = FLEN' r normal.
Proof.
  intros He Hf.
  assert (Hin : e ∈ fprEntries r normal).
  { rewrite <- float_run, list_elem_of_In, List.filter_In.
    by rewrite <- list_elem_of_In. }
  unfold fprEntries in Hin.
  by apply list_elem_of_fmap in Hin as (i & -> & _).
Qed.

(** C3. Take a processor whose floating point width [FLEN] (the
    value of [riscvGetFlenArch], with [XLEN] standing in when that is
    zero) differs from [XLEN], and whose lists are not built yet.
    Building the gdb list emits the [_URC] warning once, and a later call
    for that list emits nothing more; every floating point entry of the
    gdb list has [XLEN] bits. Building the normal list, before or after,
    emits nothing, and its floating point entries have the width
    [riscvGetFlenArch] gives. *)
Theorem getRegisters_fpr_width (r : riscv) :
  FLEN r <> XLEN r ->
  regInfo r false = None -> regInfo r true = None ->
  let gdb := (getRegisters r false).1 in
  let both := (getRegisters gdb true).1 in
  messages gdb = messages r ++ [msgURC r]
  /\ messages (getRegisters gdb false).1 = messages gdb
  /\ messages both = messages gdb
  /\ messages (getRegisters r true).1 = messages r
  /\ (exists t, regInfo both false = Some t
                /\ forall e, e ∈ t -> isFloatReg e = true ->
                              bits e = XLEN r)
  /\ (exists t, regInfo both true = Some t
                /\ forall e, e ∈ t -> isFloatReg e = true ->
                              bits e = riscvGetFlenArch (configInfo r)).
Proof.
  intros Hne H0 H1 gdb both.
  assert (Hbuilt : regInfoBuilt r).
  { intros [] t; congruence. }
  destruct (getRegisters_spec r false Hbuilt)
    as (_ & Hg0 & Hg1 & Hgcfg & _ & Hgb).
  destruct (getRegisters_spec gdb true Hgb)
    as (_ & Hb1 & Hb0 & Hbcfg & _ & _).
  fold gdb in Hg0, Hg1, Hgcfg. fold both in Hb1, Hb0, Hbcfg.
  change (negb false) with true in Hg1.
  change (negb true) with false in Hb0.
  assert (Hmis : gdbWidthMismatch r false = true).
  { unfold gdbWidthMismatch. simpl. apply negb_true_iff, N.eqb_neq.
    congruence. }
  assert (Hflen : FLEN r = riscvGetFlenArch (configInfo r)).
  { unfold FLEN in *. by destruct (_ =? 0). }
  repeat split.
  - unfold gdb. by rewrite getRegisters_messages, H0, Hmis.
  - by rewrite getRegisters_messages, Hg0.
  - unfold both. by rewrite getRegisters_messages, Hg1, H1.
  - by rewrite getRegisters_messages, H1.
  - exists (newRegisters r false). split; [by rewrite Hb0, Hg0|].
    intros e He Hf. rewrite (float_bits r false e He Hf).
    unfold FLEN'. by rewrite Hmis.
  - exists (newRegisters r true).
    split; [by rewrite Hb1, (newRegisters_config r gdb)|].
    intros e He Hf. by rewrite (float_bits r true e He Hf).
Qed.

(** *** Bands of [gdbIndex] *)

Lemma fprNum_le (r : riscv) (normal : bool) : (fprNum r normal <= 32)%nat.
Proof. unfold fprNum. case_match; lia. Qed.

Lemma vrNum_le (r : riscv) (normal : bool) :
  (vrNum r normal <= VREG_NUM)%nat.
Proof. unfold vrNum. case_match; lia. Qed.

Lemma gpr_band (r : riscv) (normal : bool) e :
  e ∈ gprEntries r normal -> gdbIndex e < N.of_nat (gprNum r normal).
Proof.
  unfold gprEntries. intros (i & -> & Hi%elem_of_seq)%list_elem_of_fmap.
  simpl. unfold Uns32. rewrite N.mod_small; [lia|].
  destruct (gprNum_cases r normal); lia.
Qed.

Lemma pc_band (r : riscv) (normal : bool) :
  gdbIndex (pcEntry r (gprNum r normal)) = N.of_nat (gprNum r normal).
Proof.
  simpl. unfold Uns32. apply N.mod_small.
  destruct (gprNum_cases r normal); lia.
Qed.

Lemma fpr_band (r : riscv) (normal : bool) e :
  e ∈ fprEntries r normal ->
  RISCV_FPR0_INDEX <= gdbIndex e < RISCV_FPR0_INDEX + 32.
Proof.
  unfold fprEntries. intros (i & -> & Hi%elem_of_seq)%list_elem_of_fmap.
  pose proof (fprNum_le r normal).
  simpl. unfold Uns32, RISCV_FPR0_INDEX. rewrite N.mod_small; lia.
Qed.

Lemma vr_band (r : riscv) (normal : bool) e :
  N.of_nat VREG_NUM + RISCV_V0_INDEX <= 2 ^ 32 ->
  e ∈ vrEntries r normal ->
  RISCV_V0_INDEX <= gdbIndex e < RISCV_V0_INDEX + N.of_nat VREG_NUM.
Proof.
  unfold vrEntries.
  intros Hv (i & -> & Hi%elem_of_seq)%list_elem_of_fmap.
  pose proof (vrNum_le r normal).
  simpl. unfold Uns32, RISCV_V0_INDEX in *. rewrite N.mod_small; lia.
Qed.

Lemma csr_band (r : riscv) (d : riscvCSRDetails) :
  csr_csrNum (cd_attrs d) < 4096 ->
  gdbIndex (csrEntry r d) = RISCV_CSR0_INDEX + csr_csrNum (cd_attrs d).
Proof.
  intros Hd. simpl. unfold Uns32, RISCV_CSR0_INDEX.
  rewrite N.mod_small; lia.
Qed.

Lemma isr_band (r : riscv) (normal : bool) e :
  e ∈ isrEntries r normal ->
  RISCV_ISR0_INDEX <= gdbIndex e < RISCV_ISR0_INDEX + 4.
Proof.
  unfold isrEntries. destruct normal.
  - rewrite visibleISRs_normal. unfold default, from_option, id.
    intros (i & -> & Hi%keptIdx_bounds)%list_elem_of_fmap.
    simpl in Hi.
    destruct i as [|[|[|[|]]]]; [| | | |lia];
      vm_compute; split; congruence.
  - rewrite visibleISRs_gdb. by intros ?%elem_of_nil.
Qed.

(** C5. In either list the [gdbIndex] values fall into bands by
    kind, given that CSR numbers are 12-bit and that [V0]+[VREG_NUM]
    fits [Uns32]: general registers have their position, below
    32; the program counter has the index that follows the last general
    register; floating point registers are in [33, 65); CSRs are at 65
    plus the CSR number; integration registers are in [0x1100, 0x1104);
    vector registers start at 0x2000. Entries of two different runs
    never have the same [gdbIndex]. *)
Theorem getRegisters_gdbIndex_bands (r : riscv) (normal : bool) :
  regInfoBuilt r ->
  (forall d, d ∈ riscvGetCSRDetails (configInfo r) normal ->
             csr_csrNum (cd_attrs d) < 4096) ->
  N.of_nat VREG_NUM + RISCV_V0_INDEX <= 2 ^ 32 ->
  regInfo (getRegisters r normal).1 normal
  = Some (concat (regBands r normal) ++ [zeroRegInfo])
  /\ (forall i e, gprEntries r normal !! i = Some e ->
                  gdbIndex e = N.of_nat i /\ gdbIndex e < 32)
  /\ gdbIndex (pcEntry r (gprNum r normal))
     = N.of_nat (length (gprEntries r normal))
  /\ (forall e, e ∈ fprEntries r normal -> 33 <= gdbIndex e < 65)
  /\ (forall d, d ∈ riscvGetCSRDetails (configInfo r) normal ->
                gdbIndex (csrEntry r d) = 65 + csr_csrNum (cd_attrs d))
  /\ (forall e, e ∈ isrEntries r normal -> 0x1100 <= gdbIndex e < 0x1104)
  /\ (forall e, e ∈ vrEntries r normal ->
                0x2000 <= gdbIndex e < 0x2000 + N.of_nat VREG_NUM)
  /\ (forall a b la lb ea eb,
        a <> b ->
        regBands r normal !! a = Some la ->
        regBands r normal !! b = Some lb ->
        ea ∈ la -> eb ∈ lb -> gdbIndex ea <> gdbIndex eb).
Proof.
  intros Hb Hcsr Hv.
  destruct (getRegisters_spec r normal Hb) as (_ & Ht & _).
  assert (Hg : (gprNum r normal <= 32)%nat)
    by (destruct (gprNum_cases r normal); lia).
  assert (Hcsrs : forall e, e ∈ csrEntries r normal ->
                            65 <= gdbIndex e < 65 + 4096).
  { unfold csrEntries. intros e (d & -> & Hd)%list_elem_of_fmap.
    rewrite (csr_band r d (Hcsr d Hd)). unfold RISCV_CSR0_INDEX.
    specialize (Hcsr d Hd). lia. }
  repeat apply conj.
  - rewrite Ht. f_equal. unfold regBands, newRegisters. cbn [concat].
    rewrite app_nil_r. by rewrite <- !(assoc_L (++)).
  - intros i e Hi.
    assert (Hlt : (i < gprNum r normal)%nat).
    { apply lookup_lt_Some in Hi. unfold gprEntries in Hi.
      by rewrite length_fmap, length_seq in Hi. }
    unfold gprEntries in Hi.
    rewrite list_lookup_fmap, lookup_seq_lt in Hi by done.
    injection Hi as <-. simpl. unfold Uns32.
    rewrite N.mod_small; lia.
  - rewrite pc_band. unfold gprEntries.
    by rewrite length_fmap, length_seq.
  - intros e He. exact (fpr_band r normal e He).
  - intros d Hd. apply csr_band. by apply Hcsr.
  - intros e He. exact (isr_band r normal e He).
  - intros e He. exact (vr_band r normal e Hv He).
  - intros a b la lb ea eb Hab Ha Hlb Hea Heb.
    pose proof (pc_band r normal) as Hpc.
    unfold regBands in Ha, Hlb.
    destruct a as [|[|[|[|[|[|a]]]]]]; simpl in Ha; simplify_eq;
      destruct b as [|[|[|[|[|[|b]]]]]]; simpl in Hlb; simplify_eq;
      repeat match goal with
        | Hin : _ ∈ [_] |- _ => apply list_elem_of_singleton in Hin as ->
        | Hin : _ ∈ gprEntries _ _ |- _ => apply gpr_band in Hin
        | Hin : _ ∈ fprEntries _ _ |- _ => apply fpr_band in Hin
        | Hin : _ ∈ vrEntries _ _ |- _ => apply (vr_band _ _ _ Hv) in Hin
        | Hin : _ ∈ csrEntries _ _ |- _ => apply Hcsrs in Hin
        | Hin : _ ∈ isrEntries _ _ |- _ => apply isr_band in Hin
        end;
      unfold RISCV_FPR0_INDEX, RISCV_V0_INDEX, RISCV_ISR0_INDEX in *;
      lia.
Qed.

End RegisterListProperties.

(** ** The view filter *)

Section ViewProperties.
Context {H : ModelHeaders} {C : Collaborators}.

Lemma newRegisters_terminated (r : riscv) (normal : bool) :
  newRegisters r normal = concat (regBands r normal) ++ [zeroRegInfo].
Proof.
  unfold regBands, newRegisters. cbn [concat].
  rewrite app_nil_r. by rewrite <- !(assoc_L (++)).
Qed.

Lemma regBands_named (r : riscv) (normal : bool) :
  Forall (fun e => notNull (name e) = true) (concat (regBands r normal)).
Proof.
  unfold regBands. cbn [concat]. rewrite app_nil_r.
  rewrite !Forall_app. repeat split.
  1-5: unfold gprEntries, fprEntries, vrEntries, csrEntries;
    apply Forall_forall; intros e Hin;
    first [ apply list_elem_of_fmap in Hin as (? & -> & Hin)
          | apply list_elem_of_singleton in Hin as -> ];
    done.
  unfold isrEntries. apply Forall_forall. destruct normal.
  - rewrite visibleISRs_normal. unfold default, from_option, id.
    intros e (i & -> & Hi%keptIdx_bounds)%list_elem_of_fmap.
    simpl in Hi. by destruct i as [|[|[|[|]]]]; [| | | |lia].
  - rewrite visibleISRs_gdb. by intros e ?%elem_of_nil.
Qed.

Lemma regBands_head (r : riscv) (normal : bool) :
  exists rest, concat (regBands r normal) = gprEntry r 0 :: rest.
Proof.
  unfold regBands, gprEntries. cbn [concat].
  destruct (gprNum_cases r normal) as [-> | ->]; by eexists.
Qed.

(** [getNextRegister] on a processor without child whose list for the
    view is in place. *)
Lemma getNextRegister_first (r : riscv) (type : vmiRegInfoType) :
  let normal := bool_decide (type = VMIRIT_NORMAL) in
  smpChild r = None ->
  regInfo r normal = Some (newRegisters r normal) ->
  getNextRegister r None type
  = (r, Build_vmiRegInfoCP normal
          <$> scanTable (fun e => notNull (name e))
                (fun e => isRegVisible e type)
                (concat (regBands r normal) ++ [zeroRegInfo]) 0).
Proof.
  intros normal Hc Ht.
  unfold getNextRegister, getChild, getRegisters. fold normal.
  rewrite Hc, Ht. cbv beta iota zeta.
  change (ri_normal (regHead normal)) with normal.
  rewrite Ht, newRegisters_terminated.
  destruct (regBands_head r normal) as (rest & ->). simpl.
  by destruct (isRegVisible _ _).
Qed.

Lemma getNextRegister_next (r : riscv) (type : vmiRegInfoType) (n : nat) :
  let normal := bool_decide (type = VMIRIT_NORMAL) in
  regInfo r normal = Some (newRegisters r normal) ->
  getNextRegister r (Some (Build_vmiRegInfoCP normal n)) type
  = (r, Build_vmiRegInfoCP normal
          <$> scanTable (fun e => notNull (name e))
                (fun e => isRegVisible e type)
                (drop (S n) (concat (regBands r normal) ++ [zeroRegInfo]))
                (S n)).
Proof.
  intros normal Ht. rewrite <- newRegisters_terminated.
  simpl. by rewrite Ht.
Qed.

Lemma omap_fmap_compose {A B D} (f : B -> option D) (g : A -> B)
    (l : list A) :
  omap f (g <$> l) = omap (f ∘ g) l.
Proof.
  induction l as [|x l IH]; csimpl; [done|]. by rewrite IH.
Qed.

Lemma omap_ext_all {A B} (f g : A -> option B) (l : list A) :
  (forall x, f x = g x) -> omap f l = omap g l.
Proof.
  intros Hfg. induction l as [|x l IH]; csimpl; [done|].
  by rewrite Hfg, IH.
Qed.

(** The descriptors a view yields are the visible entries of the list
    the view selects, in list order; the enumeration reaches null. *)
Lemma registersOfView_spec (r : riscv) (type : vmiRegInfoType) :
  smpChild r = None -> regInfoBuilt r ->
  registersOfView r type
  = Some (List.filter (fun e => isRegVisible e type)
            (concat (regBands r (bool_decide (type = VMIRIT_NORMAL))))).
Proof.
  intros Hc Hb. set (normal := bool_decide (type = VMIRIT_NORMAL)).
  destruct (getRegisters_spec r normal Hb)
    as (_ & Ht1 & _ & Hcfg1 & Hc1 & _).
  set (r1 := (getRegisters r normal).1) in *.
  rewrite Hc in Hc1.
  rewrite <- (newRegisters_config r r1 normal Hcfg1) in Ht1.
  assert (Hbands : regBands r1 normal = regBands r normal).
  { pose proof (newRegisters_config r r1 normal Hcfg1) as Hn.
    rewrite !newRegisters_terminated in Hn.
    apply app_inv_tail in Hn.
    unfold regBands in *. cbn [concat] in Hn. rewrite !app_nil_r in Hn.
    unfold gprEntries, fprEntries, vrEntries, csrEntries, isrEntries,
      gprEntry, pcEntry, fprEntry, vrEntry, csrEntry, isrEntry,
      gprNum, fprNum, vrNum, FLEN', gdbWidthMismatch, FLEN, XLEN,
      visibleISRs, getNextISRDetails, isrExcluded.
    by rewrite Hcfg1. }
  assert (Hfirst : getNextRegister r None type
                   = getNextRegister r1 None type).
  { rewrite (getNextRegister_first r1 type Hc1 Ht1).
    assert (Hg : getRegisters r normal = (r1, regHead normal)).
    { destruct (getRegisters_spec r normal Hb) as (Hh & _).
      unfold r1. rewrite <- Hh. apply surjective_pairing. }
    unfold getNextRegister, getChild. fold normal.
    rewrite Hc, Hg. cbv beta iota zeta.
    change (ri_normal (regHead normal)) with normal.
    rewrite Ht1, newRegisters_terminated.
    destruct (regBands_head r1 normal) as (rest & ->). simpl.
    by destruct (isRegVisible _ _). }
  unfold registersOfView, registerWalk.
  rewrite (iterate_first _ _ r r1
             (snd (getNextRegister r1 None type))).
  2: { rewrite Hfirst.
       by rewrite (getNextRegister_first r1 type Hc1 Ht1). }
  2: { by rewrite (getNextRegister_first r1 type Hc1 Ht1). }
  rewrite (iterate_scan (fun e => notNull (name e))
             (fun e => isRegVisible e type)
             (Build_vmiRegInfoCP normal) _ r1
             (concat (regBands r normal)) zeroRegInfo)
    with (k := 0%nat).
  - rewrite drop_0, omap_fmap_compose. f_equal.
    rewrite <- (keptIdx_lookup _ [] _ [zeroRegInfo]).
    apply omap_ext_all. intros j. unfold regAt, compose. simpl.
    fold normal. rewrite Ht1, newRegisters_terminated, Hbands. done.
  - apply regBands_named.
  - done.
  - rewrite <- Hbands.
    exact (getNextRegister_first r1 type Hc1 Ht1).
  - intros n. rewrite <- Hbands.
    exact (getNextRegister_next r1 type n Ht1).
  - by left.
  - lia.
  - rewrite (newRegisters_terminated r true),
      (newRegisters_terminated r false), !length_app.
    destruct normal; simpl; lia.
Qed.

Lemma filter_split_perm {A} (f : A -> bool) (l : list A) :
  List.filter (fun x => negb (f x)) l ++ List.filter f l ≡ₚ l.
Proof.
  induction l as [|x l IH]; simpl; [done|].
  destruct (f x); simpl.
  - by rewrite <- Permutation_middle, IH.
  - by rewrite IH.
Qed.

(** C2, as the code has it. On a processor without child, the
    non-CSR view ([VMIRIT_GPACKET]) yields no descriptor of a CSR group,
    the CSR view yields only such descriptors, and the two together
    yield, up to order, exactly the descriptors of the gdb list
    ([regInfo[False]]), which is the list both these views walk. The
    unrestricted view ([VMIRIT_NORMAL]) yields the descriptors of the
    normal list ([regInfo[True]]). Each enumeration reaches null. *)
Theorem getNextRegister_views (r : riscv) :
  smpChild r = None -> regInfoBuilt r ->
  exists gs ps ns,
    registersOfView r VMIRIT_GPACKET = Some gs
    /\ registersOfView r VMIRIT_PPACKET = Some ps
    /\ registersOfView r VMIRIT_NORMAL = Some ns
    /\ (forall e, e ∈ gs -> isCSRGroup (group e) = false)
    /\ (forall e, e ∈ ps -> isCSRGroup (group e) = true)
    /\ gs ++ ps ≡ₚ concat (regBands r false)
    /\ ns = concat (regBands r true).
Proof.
  intros Hc Hb. do 3 eexists.
  rewrite !registersOfView_spec by done.
  repeat apply conj; try reflexivity.
  - intros e [_ He]%list_elem_of_In%List.filter_In.
    by apply negb_true_iff.
  - by intros e [_ He]%list_elem_of_In%List.filter_In.
  - apply (filter_split_perm (fun e => isCSRGroup (group e))).
  - simpl. by apply filter_all.
Qed.

(** *** Processors with a child *)

Lemma getNextRegister_child (r : riscv) (type : vmiRegInfoType) c :
  smpChild r = Some c -> getNextRegister r None type = (r, None).
Proof. intros Hc. unfold getNextRegister, getChild. by rewrite Hc. Qed.

Lemma isGroupSupported_child (r : riscv) (grp : vmiRegGroupCP) c :
  smpChild r = Some c -> isGroupSupported r grp = Some (r, false).
Proof.
  intros Hc. unfold isGroupSupported. cbn [isGroupSupportedLoop].
  by rewrite (getNextRegister_child r _ c Hc).
Qed.

Lemma nextGroupScan_child (r : riscv) c (rest : list vmiRegGroup)
    (this : nat) :
  smpChild r = Some c -> nextGroupScan r rest this = Some (r, None).
Proof.
  intros Hc. revert this.
  induction rest as [|g rest IH]; intros this; simpl; [done|].
  destruct (notNull (grp_name g)); [|done].
  rewrite (isGroupSupported_child r _ c Hc). apply IH.
Qed.

(** C9. On a processor that has a child, [getNextRegister] from
    null returns null for every view and leaves the processor as it was,
    so that no register list is built; [isGroupSupported] is false for
    every group, and [getNextGroup] returns null from null and from
    every group, again leaving the processor as it was. *)
Theorem getNextRegister_container (r : riscv) (c : nat) :
  smpChild r = Some c ->
  (forall type, getNextRegister r None type = (r, None))
  /\ (forall grp, isGroupSupported r grp = Some (r, false))
  /\ (forall grp, getNextGroup r grp = Some (r, None)).
Proof.
  intros Hc. repeat split.
  - intros type. by apply (getNextRegister_child r type c).
  - intros grp. by apply (isGroupSupported_child r grp c).
  - intros [g|]; unfold getNextGroup.
    + by apply (nextGroupScan_child r c).
    + rewrite (isGroupSupported_child r _ c Hc).
      by apply (nextGroupScan_child r c).
Qed.

End ViewProperties.

(** ** Accessor callbacks *)

Section AccessorProperties.
Context {H : ModelHeaders} {C : Collaborators}.

Lemma artifactCall_restores (run : riscv -> bool * riscv * list bool)
    (r : riscv) :
  artifactAccess (artifactCall run r).1.2 = artifactAccess r.
Proof.
  unfold artifactCall.
  by destruct (run (set_artifactAccess r true)) as [[ok r2] seen].
Qed.

Lemma artifactCall_result (run : riscv -> bool * riscv * list bool)
    (r : riscv) :
  (artifactCall run r).1.1 = (run (set_artifactAccess r true)).1.1
  /\ (artifactCall run r).2 = (run (set_artifactAccess r true)).2.
Proof.
  unfold artifactCall.
  by destruct (run (set_artifactAccess r true)) as [[ok r2] seen].
Qed.

(** While the flag is set, a delegated call that does not assign the
    flag itself sees it set at every step and returns with it set,
    whatever accesses it nests. *)
Lemma runCSR_flag (c : csrCall) :
  csrKeepsFlag c ->
  forall r, artifactAccess r = true ->
    artifactAccess (runCSR c r).1.2 = true
    /\ Forall (eq true) (runCSR c r).2
    /\ (runCSR c r).2 <> [].
Proof.
  induction c as [ok|f k IH|k IH|inner IHi k IHk]; simpl.
  - intros _ r Hr. rewrite Hr. repeat split; [by repeat constructor|done].
  - intros [Hf Hk] r Hr.
    destruct (IH Hk (f r)) as (Ha & Hs & _); [by rewrite Hf|].
    destruct (runCSR k (f r)) as [[ok r'] seen]. simpl in *.
    rewrite Hr. repeat split; [done|by constructor|done].
  - intros Hk r Hr.
    destruct (IH r (Hk r) r Hr) as (Ha & Hs & _).
    destruct (runCSR (k r) r) as [[ok r'] seen]. simpl in *.
    rewrite Hr. repeat split; [done|by constructor|done].
  - intros [Hi Hk] r Hr.
    pose proof (artifactCall_restores (runCSR inner) r) as Hback.
    destruct (artifactCall_result (runCSR inner) r) as [_ Hseen].
    destruct (IHi Hi (set_artifactAccess r true)) as (_ & Hs1 & _);
      [done|].
    rewrite <- Hseen in Hs1.
    destruct (artifactCall (runCSR inner) r) as [[ok1 r1] seen1].
    simpl in Hback, Hs1.
    destruct (IHk ok1 (Hk ok1) r1) as (Ha & Hs & _); [congruence|].
    destruct (runCSR (k ok1) r1) as [[ok r'] seen]. simpl in *.
    rewrite Hr. repeat split; [done| |done].
    constructor; [done|]. by apply Forall_app.
Qed.

(** C4. [readCSR] and [writeCSR] return with [artifactAccess] at
    the value it had when they were called and return the [Bool] of the
    delegated call, be it [True] or [False]. Provided the CSR code does
    not assign the flag itself, the flag is [True] at every step of the
    delegated call, including the steps of the CSR accesses nested in it
    to any depth and the steps that follow their return. *)
Theorem readCSR_writeCSR_artifactAccess (r : riscv) (reg : vmiRegInfo)
    (buffer : N) :
  csrKeepsFlag (riscvReadCSR (getCSRAttrs reg) buffer) ->
  csrKeepsFlag (riscvWriteCSR (getCSRAttrs reg) buffer) ->
  (artifactAccess (readCSR r reg buffer).1.2 = artifactAccess r
   /\ (readCSR r reg buffer).1.1
      = (runCSR (riscvReadCSR (getCSRAttrs reg) buffer)
           (set_artifactAccess r true)).1.1
   /\ Forall (eq true) (readCSR r reg buffer).2
   /\ (readCSR r reg buffer).2 <> [])
  /\ (artifactAccess (writeCSR r reg buffer).1.2 = artifactAccess r
      /\ (writeCSR r reg buffer).1.1
         = (runCSR (riscvWriteCSR (getCSRAttrs reg) buffer)
              (set_artifactAccess r true)).1.1
      /\ Forall (eq true) (writeCSR r reg buffer).2
      /\ (writeCSR r reg buffer).2 <> []).
Proof.
  intros Hrd Hwr. unfold readCSR, writeCSR. split.
  - destruct (artifactCall_result
                (runCSR (riscvReadCSR (getCSRAttrs reg) buffer)) r)
      as [-> ->].
    destruct (runCSR_flag _ Hrd (set_artifactAccess r true))
      as (_ & Hs & Hn); [done|].
    by rewrite artifactCall_restores.
  - destruct (artifactCall_result
                (runCSR (riscvWriteCSR (getCSRAttrs reg) buffer)) r)
      as [-> ->].
    destruct (runCSR_flag _ Hwr (set_artifactAccess r true))
      as (_ & Hs & Hn); [done|].
    by rewrite artifactCall_restores.
Qed.

(** C10. [readPC], [writePC], [writeDM] and [writeDMStall] return
    [True] whatever the processor and the buffer; a callback of this
    unit that returns [False] is [readCSR] or [writeCSR], and then the
    [False] is the one the CSR code returned. *)
Theorem callbacks_success (r : riscv) (reg : vmiRegInfo) (buffer : N) :
  (readPC r buffer).1 = true
  /\ (writePC r buffer).1 = true
  /\ (writeDM r buffer).1 = true
  /\ (writeDMStall r buffer).1 = true
  /\ (forall cb, readResult cb r reg buffer = false ->
                 cb = CB_readCSR
                 /\ (runCSR (riscvReadCSR (getCSRAttrs reg) buffer)
                       (set_artifactAccess r true)).1.1 = false)
  /\ (forall cb, writeResult cb r reg buffer = false ->
                 cb = CB_writeCSR
                 /\ (runCSR (riscvWriteCSR (getCSRAttrs reg) buffer)
                       (set_artifactAccess r true)).1.1 = false).
Proof.
  assert (Hpc : (readPC r buffer).1 = true).
  { unfold readPC. by destruct (_ =? 32). }
  repeat split; try done.
  - destruct cb; simpl in *; congruence.
  - destruct cb; [simpl in *; congruence|]. simpl in *.
    by destruct (artifactCall_result
                   (runCSR (riscvReadCSR (getCSRAttrs reg) buffer)) r)
      as [<- _].
  - destruct cb; simpl in *; congruence.
  - destruct cb; try (simpl in *; congruence). simpl in *.
    by destruct (artifactCall_result
                   (runCSR (riscvWriteCSR (getCSRAttrs reg) buffer)) r)
      as [<- _].
Qed.

End AccessorProperties.

(** ** Freeing the register lists *)

Section FreeProperties.
Context {H : ModelHeaders} {C : Collaborators}.

(** C8. [riscvFreeRegInfo] leaves a processor whose lists were
    never built as it is. On any processor it hands each list that is
    there to [STYPE_FREE] once, slot 0 first, and leaves both slots null;
    a second call changes nothing more. *)
Theorem riscvFreeRegInfo_idempotent (r : riscv) :
  riscvFreeRegInfo (neverBuilt r) = neverBuilt r
  /\ riscvFreeRegInfo (riscvFreeRegInfo r) = riscvFreeRegInfo r
  /\ regInfo (riscvFreeRegInfo r) false = None
  /\ regInfo (riscvFreeRegInfo r) true = None
  /\ freed (riscvFreeRegInfo r)
     = freed r ++ option_list (regInfo r false)
               ++ option_list (regInfo r true).
Proof.
  destruct r as [cfg [t0|] [t1|] a c p m f];
    unfold riscvFreeRegInfo, freeRegInfoSlot, neverBuilt; simpl;
    repeat split; try done; by rewrite ?app_nil_r, <- ?app_assoc.
Qed.

End FreeProperties.

(** ** The concrete variant *)

Section ConcreteVariant.
#[local] Existing Instance exHeaders.
#[local] Existing Instance exCollaborators.

Lemma exProcessor_built (a : N) (c : option nat) :
  regInfoBuilt (exProcessor a c).
Proof. intros [] t; discriminate. Defined.

Lemma exCSRs_numbers (r : riscv) (normal : bool) (d : riscvCSRDetails) :
  d ∈ riscvGetCSRDetails (configInfo r) normal ->
  csr_csrNum (cd_attrs d) < 4096.
Proof.
  simpl. unfold exCSRs.
  intros [->|[->|[]%elem_of_nil]%elem_of_cons]%elem_of_cons; reflexivity.
Defined.

Lemma exReadCSR_keepsFlag attrs buffer :
  csrKeepsFlag (exReadCSR attrs buffer).
Proof.
  simpl. intros r. destruct (pc r =? 0); simpl; [exact I|].
  repeat split.
Defined.

Lemma exWriteCSR_keepsFlag attrs buffer :
  csrKeepsFlag (exWriteCSR attrs buffer).
Proof. simpl. repeat split. Defined.

(** RV32IA, gdb list: the hypothesis of C6 holds and so does what follows
    from it. *)
Lemma getRegisters_gpr_access_witness :
  regInfoBuilt exRV32IA
  /\ exists t,
      regInfo (getRegisters exRV32IA false).1 false = Some t
      /\ (forall i, (i < gprNum exRV32IA false)%nat ->
                    exists e, t !! i = Some e /\ isGeneralReg e = true
                              /\ raw e = RISCV_GPR i
                              /\ gdbIndex e = N.of_nat i)
      /\ (forall i e, t !! i = Some e -> isGeneralReg e = true ->
                      access e = if decide (i = 0%nat) then vmi_RA_R
                                 else vmi_RA_RW).
Proof.
  split; [apply exProcessor_built|].
  apply (getRegisters_gpr_access exRV32IA false), exProcessor_built.
Defined.

Lemma getRegisters_counts_witness :
  regInfoBuilt exRV32IA
  /\ exists t,
      regInfo (getRegisters exRV32IA true).1 true = Some t
      /\ length (List.filter isGeneralReg t) = 32%nat
      /\ length (List.filter isFloatReg t) = 0%nat
      /\ length (List.filter isVectorReg t) = 0%nat.
Proof.
  split; [apply exProcessor_built|].
  destruct (getRegisters_counts exRV32IA true (exProcessor_built _ _))
    as (t & Ht & Hg & Hf & Hv & _).
  exists t. split; [exact Ht|]. split; [exact Hg|]. split; [exact Hf|].
  exact Hv.
Defined.

(** C1, as the specification words it, fails: on RV32IA (32 bits wide,
    base integer present, no floating point) the gdb list holds 32
    general registers and 32 floating point registers, not 16 and 0. *)
Lemma getRegisters_counts_counterexample :
  riscvGetXlenArch (configInfo exRV32IA) = 32
  /\ N.land (arch (configInfo exRV32IA)) ISA_I <> 0
  /\ N.land (arch (configInfo exRV32IA)) ISA_DF = 0
  /\ exists t,
      regInfo (getRegisters exRV32IA false).1 false = Some t
      /\ length (List.filter isGeneralReg t) = 32%nat
      /\ length (List.filter isFloatReg t) = 32%nat
      /\ ~ (length (List.filter isGeneralReg t) = 16%nat
            /\ length (List.filter isFloatReg t) = 0%nat).
Proof.
  split; [reflexivity|]. split; [by vm_compute|]. split; [reflexivity|].
  eexists. split; [reflexivity|].
  split; [by vm_compute|]. split; [by vm_compute|].
  vm_compute. intros [Hg _]. discriminate Hg.
Qed.

Lemma getRegisters_fpr_width_witness :
  FLEN exRV32IFD <> XLEN exRV32IFD
  /\ regInfo exRV32IFD false = None /\ regInfo exRV32IFD true = None
  /\ messages (getRegisters exRV32IFD false).1 = [msgURC exRV32IFD]
  /\ messages (getRegisters (getRegisters exRV32IFD false).1 true).1
     = [msgURC exRV32IFD]
  /\ messages (getRegisters exRV32IFD true).1 = [].
Proof.
  assert (Hne : FLEN exRV32IFD <> XLEN exRV32IFD) by (by vm_compute).
  split; [exact Hne|]. split; [reflexivity|]. split; [reflexivity|].
  destruct (getRegisters_fpr_width exRV32IFD Hne eq_refl eq_refl)
    as (Hm & _ & Hboth & Hfull & _).
  split; [exact Hm|]. split; [|exact Hfull].
  exact (eq_trans Hboth Hm).
Defined.

Lemma getRegisters_gdbIndex_bands_witness :
  regInfoBuilt exRV32IA
  /\ (forall d, d ∈ riscvGetCSRDetails (configInfo exRV32IA) true ->
                csr_csrNum (cd_attrs d) < 4096)
  /\ N.of_nat VREG_NUM + RISCV_V0_INDEX <= 2 ^ 32
  /\ (forall a b la lb ea eb,
        a <> b ->
        regBands exRV32IA true !! a = Some la ->
        regBands exRV32IA true !! b = Some lb ->
        ea ∈ la -> eb ∈ lb -> gdbIndex ea <> gdbIndex eb).
Proof.
  assert (Hv : N.of_nat VREG_NUM + RISCV_V0_INDEX <= 2 ^ 32)
    by (by vm_compute).
  split; [apply exProcessor_built|].
  split; [apply exCSRs_numbers|]. split; [exact Hv|].
  apply (getRegisters_gdbIndex_bands exRV32IA true
           (exProcessor_built _ _) (exCSRs_numbers _ _) Hv).
Defined.

Lemma getNextRegister_views_witness :
  smpChild exRV32IA = None /\ regInfoBuilt exRV32IA
  /\ exists gs ps ns,
      registersOfView exRV32IA VMIRIT_GPACKET = Some gs
      /\ registersOfView exRV32IA VMIRIT_PPACKET = Some ps
      /\ registersOfView exRV32IA VMIRIT_NORMAL = Some ns
      /\ (forall e, e ∈ gs -> isCSRGroup (group e) = false)
      /\ (forall e, e ∈ ps -> isCSRGroup (group e) = true)
      /\ gs ++ ps ≡ₚ concat (regBands exRV32IA false)
      /\ ns = concat (regBands exRV32IA true).
Proof.
  split; [reflexivity|]. split; [apply exProcessor_built|].
  apply (getNextRegister_views exRV32IA eq_refl (exProcessor_built _ _)).
Defined.

(** C2, as the specification words it, fails: on RV32IA the unrestricted
    view yields the integration support register [commercial], which
    neither subset view yields; so the union of the subset views is not
    the set of the unrestricted view. *)
Lemma getNextRegister_views_counterexample :
  smpChild exRV32IA = None
  /\ exists gs ps ns,
      registersOfView exRV32IA VMIRIT_GPACKET = Some gs
      /\ registersOfView exRV32IA VMIRIT_PPACKET = Some ps
      /\ registersOfView exRV32IA VMIRIT_NORMAL = Some ns
      /\ ~ (forall e, e ∈ gs ++ ps <-> e ∈ ns).
Proof.
  split; [reflexivity|]. do 3 eexists.
  split; [by vm_compute|]. split; [by vm_compute|].
  split; [by vm_compute|].
  intros Hall.
  match goal with
  | Hall : forall e, e ∈ ?l <-> e ∈ ?ns |- _ =>
      assert (Hex : Exists (fun e => group e = Some 7%nat) ns)
        by (apply (bool_decide_unpack _); by vm_compute);
      assert (Hno : Forall (fun e => group e <> Some 7%nat) l)
        by (apply (bool_decide_unpack _); by vm_compute)
  end.
  apply Exists_exists in Hex as (e & He & Hg).
  apply Hall in He.
  rewrite Forall_forall in Hno. by apply (Hno e He).
Qed.

Lemma getNextRegister_container_witness :
  smpChild exCluster = Some 0%nat
  /\ (forall type, getNextRegister exCluster None type = (exCluster, None))
  /\ (forall grp, getNextGroup exCluster grp = Some (exCluster, None)).
Proof.
  split; [reflexivity|].
  destruct (getNextRegister_container exCluster 0 eq_refl)
    as (Hr & _ & Hg).
  split; [exact Hr|exact Hg].
Defined.

Lemma readCSR_writeCSR_artifactAccess_witness :
  csrKeepsFlag (riscvReadCSR None 0)
  /\ csrKeepsFlag (riscvWriteCSR None 0)
  /\ artifactAccess (readCSR (set_pc exRV32IA 8) zeroRegInfo 0).1.2 = false
  /\ Forall (eq true) (readCSR (set_pc exRV32IA 8) zeroRegInfo 0).2
  /\ artifactAccess (writeCSR exRV32IA zeroRegInfo 0).1.2 = false.
Proof.
  split; [apply exReadCSR_keepsFlag|].
  split; [apply exWriteCSR_keepsFlag|].
  destruct (readCSR_writeCSR_artifactAccess (C:=exCollaborators)
              (set_pc exRV32IA 8)
              zeroRegInfo 0 (exReadCSR_keepsFlag None 0)
              (exWriteCSR_keepsFlag None 0))
    as ((Hr & _ & Hs & _) & _).
  destruct (readCSR_writeCSR_artifactAccess (C:=exCollaborators)
              exRV32IA
              zeroRegInfo 0 (exReadCSR_keepsFlag None 0)
              (exWriteCSR_keepsFlag None 0))
    as (_ & (Hw & _)).
  split; [exact Hr|]. split; [exact Hs|exact Hw].
Defined.

(** The CSR read of the concrete variant fails through [readCSR]; the
    nested read, taken when the program counter is not zero, runs with
    the flag set at each of its steps and leaves it as it was. *)
Example readCSR_failure :
  readResult CB_readCSR exRV32IA zeroRegInfo 0 = false
  /\ readCSR (set_pc exRV32IA 8) zeroRegInfo 0
     = (true, set_pc exRV32IA 12, [true; true; true; true; true]).
Proof. by vm_compute. Qed.

End ConcreteVariant.

(** * Further properties of the unit *)

(** ** The cache of register lists *)

Section CacheProperties.
Context {H : ModelHeaders} {C : Collaborators}.

Lemma gdbWidthMismatch_config (r r' : riscv) (normal : bool) :
  configInfo r' = configInfo r ->
  gdbWidthMismatch r' normal = gdbWidthMismatch r normal.
Proof.
  intros Hcfg. unfold gdbWidthMismatch, FLEN, XLEN. by rewrite Hcfg.
Qed.

Lemma msgURC_config (r r' : riscv) :
  configInfo r' = configInfo r -> msgURC r' = msgURC r.
Proof. intros Hcfg. unfold msgURC, FLEN, XLEN. by rewrite Hcfg. Qed.

(** X1. A second call of [getRegisters] for the same list finds it
    in place: it returns the same pointer and changes nothing on the
    processor, so that a list is built, and the warning of the gdb
    workaround emitted, at most once. *)
Theorem getRegisters_cached (r : riscv) (normal : bool) :
  getRegisters (getRegisters r normal).1 normal = getRegisters r normal
  /\ regInfo (getRegisters r normal).1 normal <> None.
Proof.
  unfold getRegisters.
  destruct (regInfo r normal) as [t|] eqn:Ht; simpl.
  - by rewrite Ht.
  - rewrite regInfo_set_regInfo, decide_True by done. done.
Qed.

(** X2. The two lists are built independently of each other:
    building the gdb list and then the normal list leaves the processor
    exactly as building them in the other order does, and building one
    list leaves the slot of the other as it was. *)
Theorem getRegisters_order (r : riscv) :
  (getRegisters (getRegisters r false).1 true).1
  = (getRegisters (getRegisters r true).1 false).1
  /\ regInfo (getRegisters r false).1 true = regInfo r true
  /\ regInfo (getRegisters r true).1 false = regInfo r false.
Proof.
  assert (Hcfg : forall normal,
             configInfo (getRegisters r normal).1 = configInfo r).
  { intros normal. unfold getRegisters.
    destruct (regInfo r normal); [done|].
    by destruct (gdbWidthMismatch r normal). }
  assert (Hother : forall normal,
             regInfo (getRegisters r normal).1 (negb normal)
             = regInfo r (negb normal)).
  { intros normal. unfold getRegisters.
    destruct (regInfo r normal); [done|]. simpl.
    rewrite regInfo_set_regInfo, decide_False by by destruct normal.
    by destruct (gdbWidthMismatch r normal). }
  split; [|split; [exact (Hother false)|exact (Hother true)]].
  pose proof (Hother false) as H0. pose proof (Hother true) as H1.
  pose proof (Hcfg false) as Hc0. pose proof (Hcfg true) as Hc1.
  change (negb false) with true in H0. change (negb true) with false in H1.
  set (A := (getRegisters r false).1) in *.
  set (B := (getRegisters r true).1) in *.
  unfold getRegisters. rewrite H0, H1.
  rewrite (gdbWidthMismatch_config r B false Hc1).
  rewrite (msgURC_config r B Hc1).
  rewrite (newRegisters_config r A true Hc0).
  rewrite (newRegisters_config r B false Hc1).
  subst A B. unfold getRegisters.
  destruct r as [cfg [t0|] [t1|] a c p m f]; simpl; try done.
  by destruct (gdbWidthMismatch _ false).
Qed.

(** X3. The list [getRegisters] returns fills its allocation of
    [regNum+1] entries exactly: the first [regNum] entries are named and
    the last one is the zero entry, so that the test of [(reg+1)->name]
    finds the end of the list at the end of the allocation and nowhere
    before. *)
Theorem getRegisters_terminated (r : riscv) (normal : bool) :
  regInfoBuilt r ->
  exists t,
    regInfo (getRegisters r normal).1 normal = Some t
    /\ length t = S (regNum r normal)
    /\ t !! regNum r normal = Some zeroRegInfo
    /\ (forall i e, t !! i = Some e ->
                    (name e = None <-> i = regNum r normal)).
Proof.
  intros Hb. exists (newRegisters r normal).
  destruct (getRegisters_spec r normal Hb) as (_ & Ht & _).
  split; [done|]. split; [apply newRegisters_length|].
  pose proof (newRegisters_length r normal) as Hlen.
  rewrite newRegisters_terminated in *.
  rewrite length_app in Hlen.
  change (length [zeroRegInfo]) with 1%nat in Hlen.
  assert (Hbody : length (concat (regBands r normal)) = regNum r normal)
    by lia.
  split.
  - rewrite lookup_app_r, Hbody, Nat.sub_diag by lia. done.
  - intros i e Hi. split.
    + intros Hname. destruct (decide (i < regNum r normal)%nat) as [Hlt|Hge].
      * rewrite lookup_app_l in Hi by lia.
        pose proof (regBands_named r normal) as Hn.
        rewrite Forall_forall in Hn.
        specialize (Hn e (list_elem_of_lookup_2 _ _ _ Hi)).
        by rewrite Hname in Hn.
      * apply lookup_lt_Some in Hi. rewrite length_app in Hi.
        change (length [zeroRegInfo]) with 1%nat in Hi. lia.
    + intros ->. rewrite lookup_app_r, Hbody, Nat.sub_diag in Hi by lia.
      by injection Hi as <-.
Qed.

Lemma regInfoBuilt_config (r r' : riscv) :
  configInfo r' = configInfo r ->
  (forall normal t, regInfo r' normal = Some t ->
                    regInfo r normal = Some t) ->
  regInfoBuilt r -> regInfoBuilt r'.
Proof.
  intros Hcfg Hsub Hb normal t Ht.
  rewrite (newRegisters_config r r' normal Hcfg).
  apply Hb. by apply Hsub.
Qed.

Lemma riscvFreeRegInfo_slots (r : riscv) (normal : bool) :
  regInfo (riscvFreeRegInfo r) normal = None
  /\ configInfo (riscvFreeRegInfo r) = configInfo r.
Proof.
  destruct r as [cfg [t0|] [t1|] a c p m f], normal;
    unfold riscvFreeRegInfo, freeRegInfoSlot; by simpl.
Qed.

Lemma riscvFreeRegInfo_freed (r : riscv) (normal : bool) t :
  regInfo r normal = Some t -> t ∈ freed (riscvFreeRegInfo r).
Proof.
  destruct r as [cfg [t0|] [t1|] a c p m f], normal; simpl;
    intros [= ->]; unfold riscvFreeRegInfo, freeRegInfoSlot; simpl;
    rewrite ?elem_of_app, ?list_elem_of_singleton; naive_solver.
Qed.

(** X4. The operations of this unit keep the cached lists in step
    with the configuration: if every list in place is the one
    [getRegisters] builds for the processor, this is still so after
    [getRegisters], after [getNextRegister] from any pointer in any view,
    after [riscvFreeRegInfo] and after [writePC]. *)
Theorem regInfoBuilt_kept (r : riscv) :
  regInfoBuilt r ->
  (forall normal, regInfoBuilt (getRegisters r normal).1)
  /\ (forall reg type, regInfoBuilt (getNextRegister r reg type).1)
  /\ regInfoBuilt (riscvFreeRegInfo r)
  /\ (forall buffer, regInfoBuilt (writePC r buffer).2).
Proof.
  intros Hb.
  assert (Hget : forall normal, regInfoBuilt (getRegisters r normal).1).
  { intros normal. by destruct (getRegisters_spec r normal Hb)
      as (_ & _ & _ & _ & _ & Hb'). }
  split; [exact Hget|]. split; [|split].
  - intros [p|] type; unfold getNextRegister, getChild.
    + by destruct (regInfo r (ri_normal p)).
    + destruct (smpChild r); [done|].
      specialize (Hget (bool_decide (type = VMIRIT_NORMAL))).
      destruct (getRegisters r _) as [r' head]. simpl in Hget.
      by destruct (regInfo r' (ri_normal head)) as [[|e rest]|].
  - intros normal t Ht.
    by rewrite (proj1 (riscvFreeRegInfo_slots r normal)) in Ht.
  - intros buffer. by apply (regInfoBuilt_config r).
Qed.

(** X5. Freeing and building again gives the list back: after
    [riscvFreeRegInfo] both slots are empty, the freed list is among the
    blocks handed to [STYPE_FREE], and the next [getRegisters] builds,
    for the same configuration, the same list as before. *)
Theorem getRegisters_after_free (r : riscv) (normal : bool) :
  regInfoBuilt r ->
  exists t,
    regInfo (getRegisters r normal).1 normal = Some t
    /\ t ∈ freed (riscvFreeRegInfo (getRegisters r normal).1)
    /\ regInfo (riscvFreeRegInfo (getRegisters r normal).1) normal = None
    /\ regInfo (getRegisters
                  (riscvFreeRegInfo (getRegisters r normal).1) normal).1
               normal = Some t.
Proof.
  intros Hb. exists (newRegisters r normal).
  destruct (getRegisters_spec r normal Hb) as (_ & Ht & _ & Hcfg & _ & Hb1).
  set (r1 := (getRegisters r normal).1) in *.
  destruct (riscvFreeRegInfo_slots r1 normal) as [Hnone Hcfg2].
  split; [done|]. split; [|split; [done|]].
  - by apply (riscvFreeRegInfo_freed r1 normal).
  - assert (Hb2 : regInfoBuilt (riscvFreeRegInfo r1)).
    { intros b t Hbt.
      by rewrite (proj1 (riscvFreeRegInfo_slots r1 b)) in Hbt. }
    destruct (getRegisters_spec _ normal Hb2) as (_ & -> & _).
    f_equal. rewrite (newRegisters_config r1) by done.
    by apply newRegisters_config.
Qed.

End CacheProperties.

(** ** Walking the lists and the groups *)

Section WalkProperties.
Context {H : ModelHeaders} {C : Collaborators}.

Lemma scanTable_Some {A} (named keep : A -> bool) (rest : list A)
    (i j : nat) :
  scanTable named keep rest i = Some j ->
  (i <= j)%nat
  /\ (exists e, rest !! (j - i)%nat = Some e
                /\ named e = true /\ keep e = true)
  /\ (forall k, (k < j - i)%nat ->
                exists e, rest !! k = Some e
                          /\ named e = true /\ keep e = false).
Proof.
  revert i. induction rest as [|e rest IH]; intros i; simpl; [done|].
  destruct (named e) eqn:Hn; [|done].
  destruct (keep e) eqn:Hk.
  - intros [= <-]. rewrite Nat.sub_diag. split; [lia|].
    split; [by exists e|]. intros k Hlt. lia.
  - intros (Hle & (e' & He' & Hn' & Hk') & Hbefore)%IH.
    split; [lia|]. split.
    + exists e'. by replace (j - i)%nat with (S (j - S i)) by lia.
    + intros [|k] Hlt; [by exists e|].
      apply Hbefore. lia.
Qed.

(** X6. [getNextRegister] from a register never changes the
    processor, and what it returns, if not null, points into the same
    list strictly after the register it was given, at a named descriptor
    that is visible in the view; every descriptor it passed over is named
    and not visible. Hence a walk never yields a register twice. *)
Theorem getNextRegister_advances (r : riscv) (reg : vmiRegInfoCP)
    (type : vmiRegInfoType) :
  (getNextRegister r (Some reg) type).1 = r
  /\ forall q, (getNextRegister r (Some reg) type).2 = Some q ->
       ri_normal q = ri_normal reg
       /\ (ri_idx reg < ri_idx q)%nat
       /\ (exists e, regAt r q = Some e /\ name e <> None
                     /\ isRegVisible e type = true)
       /\ (forall j, (ri_idx reg < j < ri_idx q)%nat ->
             exists e, regAt r (Build_vmiRegInfoCP (ri_normal reg) j)
                       = Some e
                       /\ name e <> None /\ isRegVisible e type = false).
Proof.
  unfold getNextRegister, regAt.
  destruct (regInfo r (ri_normal reg)) as [t|] eqn:Ht; simpl; [|done].
  split; [done|]. intros q Hq.
  destruct (scanTable _ _ _ _) as [j|] eqn:Hscan; [|done].
  injection Hq as <-. simpl. rewrite Ht. simpl.
  apply scanTable_Some in Hscan
    as (Hle & (e & He & Hn & Hv) & Hbefore).
  rewrite lookup_drop in He.
  replace (S (ri_idx reg) + (j - S (ri_idx reg)))%nat with j in He by lia.
  split; [done|]. split; [lia|]. split.
  - exists e. split; [done|]. split; [|done]. by destruct (name e).
  - intros k Hk.
    destruct (Hbefore (k - S (ri_idx reg))%nat) as (e' & He' & Hn' & Hv');
      [lia|].
    rewrite lookup_drop in He'.
    replace (S (ri_idx reg) + (k - S (ri_idx reg)))%nat with k in He'
      by lia.
    exists e'. split; [done|]. split; [|done]. by destruct (name e').
Qed.

Lemma regBands_config (r r' : riscv) (normal : bool) :
  configInfo r' = configInfo r -> regBands r' normal = regBands r normal.
Proof.
  intros Hcfg.
  unfold regBands, gprEntries, fprEntries, vrEntries, csrEntries,
    isrEntries, gprEntry, pcEntry, fprEntry, vrEntry, csrEntry, isrEntry,
    gprNum, fprNum, vrNum, FLEN', gdbWidthMismatch, FLEN, XLEN,
    visibleISRs, getNextISRDetails, isrExcluded.
  by rewrite Hcfg.
Qed.

(** The processor after the list for [normal] is built. *)
Lemma built_state (r : riscv) (normal : bool) :
  smpChild r = None -> regInfoBuilt r ->
  smpChild (getRegisters r normal).1 = None
  /\ regInfo (getRegisters r normal).1 normal
     = Some (newRegisters (getRegisters r normal).1 normal)
  /\ regBands (getRegisters r normal).1 normal = regBands r normal
  /\ regInfoBuilt (getRegisters r normal).1
  /\ getRegisters r normal = ((getRegisters r normal).1, regHead normal)
  /\ (getRegisters (getRegisters r normal).1 normal).1
     = (getRegisters r normal).1.
Proof.
  intros Hc Hb.
  destruct (getRegisters_spec r normal Hb)
    as (Hh & Ht & _ & Hcfg & Hc1 & Hb1).
  repeat split.
  - by rewrite Hc1.
  - by rewrite Ht, (newRegisters_config r _ normal Hcfg).
  - by apply regBands_config.
  - done.
  - rewrite <- Hh. apply surjective_pairing.
  - unfold getRegisters at 1. by rewrite Ht.
Qed.

Lemma getNextRegister_build (r : riscv) (type : vmiRegInfoType) :
  smpChild r = None -> regInfoBuilt r ->
  getNextRegister r None type
  = getNextRegister
      (getRegisters r (bool_decide (type = VMIRIT_NORMAL))).1 None type.
Proof.
  intros Hc Hb. set (normal := bool_decide (type = VMIRIT_NORMAL)).
  destruct (built_state r normal Hc Hb) as (Hc1 & Ht1 & _ & _ & Hg & _).
  set (r1 := (getRegisters r normal).1) in *.
  rewrite (getNextRegister_first r1 type Hc1 Ht1).
  unfold getNextRegister, getChild. fold normal.
  rewrite Hc, Hg. cbv beta iota zeta.
  change (ri_normal (regHead normal)) with normal.
  rewrite Ht1, newRegisters_terminated.
  destruct (regBands_head r1 normal) as (rest & ->). simpl.
  by destruct (isRegVisible _ _).
Qed.

Lemma scanTable_all {A} (named keep : A -> bool) (l : list A) (z : A)
    (k : nat) :
  (forall e, keep e = true) ->
  Forall (fun e => named e = true) l -> named z = false ->
  (k <= length l)%nat ->
  scanTable named keep (drop k (l ++ [z])) k
  = if decide (k < length l)%nat then Some k else None.
Proof.
  intros Hkeep Hl Hz Hk. rewrite drop_app_le by done.
  case_decide as Hlt.
  - destruct (lookup_lt_is_Some_2 l k Hlt) as [e He].
    rewrite (drop_S l e k He). simpl.
    rewrite Forall_forall in Hl.
    by rewrite (Hl e (list_elem_of_lookup_2 _ _ _ He)), Hkeep.
  - rewrite drop_ge by lia. simpl. by rewrite Hz.
Qed.

(** The loop of [isGroupSupported] on a processor whose normal list is
    in place: it reaches a verdict within the fuel. *)
Lemma isGroupSupportedLoop_built (r : riscv) (grp : vmiRegGroupCP) :
  smpChild r = None ->
  regInfo r true = Some (newRegisters r true) ->
  forall fuel k info,
    (info = None /\ k = 0%nat)
    \/ (exists n, info = Some (Build_vmiRegInfoCP true n) /\ k = S n) ->
    (k <= length (concat (regBands r true)))%nat ->
    (length (concat (regBands r true)) - k < fuel)%nat ->
    isGroupSupportedLoop fuel r info grp
    = Some (r, groupPresent (drop k (concat (regBands r true))) grp).
Proof.
  intros Hc Ht fuel.
  induction fuel as [|n IH]; intros k info Hk Hle Hfuel; [lia|].
  cbn [isGroupSupportedLoop].
  assert (Hnext : getNextRegister r info VMIRIT_NORMAL
                  = (r, if decide (k < length (concat (regBands r true)))%nat
                        then Some (Build_vmiRegInfoCP true k) else None)).
  { destruct Hk as [[-> ->]|(m & -> & ->)].
    - rewrite (getNextRegister_first r VMIRIT_NORMAL Hc Ht).
      change (bool_decide (VMIRIT_NORMAL = VMIRIT_NORMAL)) with true.
      rewrite <- (drop_0 (concat (regBands r true) ++ [zeroRegInfo])).
      rewrite (scanTable_all (fun e => notNull (name e))
                 (fun e => isRegVisible e VMIRIT_NORMAL) _ zeroRegInfo 0
                 (fun _ => eq_refl) (regBands_named r true) eq_refl Hle).
      by case_decide.
    - pose proof (getNextRegister_next r VMIRIT_NORMAL m Ht) as Hn.
      cbv zeta in Hn.
      change (bool_decide (VMIRIT_NORMAL = VMIRIT_NORMAL)) with true in Hn.
      rewrite Hn.
      rewrite (scanTable_all (fun e => notNull (name e))
                 (fun e => isRegVisible e VMIRIT_NORMAL) _ zeroRegInfo
                 (S m) (fun _ => eq_refl) (regBands_named r true)
                 eq_refl Hle).
      by case_decide. }
  rewrite Hnext. case_decide as Hlt.
  - destruct (lookup_lt_is_Some_2 _ k Hlt) as [e He].
    rewrite (drop_S _ e k He).
    assert (Hat : regAt r (Build_vmiRegInfoCP true k) = Some e).
    { unfold regAt. cbn [ri_normal ri_idx]. rewrite Ht.
      cbn [mbind option_bind].
      rewrite newRegisters_terminated. by rewrite lookup_app_l. }
    rewrite Hat. simpl. case_decide as Hg.
    + by rewrite bool_decide_true.
    + rewrite bool_decide_false by done. simpl.
      apply IH; [right; by exists k|lia|lia].
  - by rewrite drop_ge by lia.
Qed.

Lemma isGroupSupported_built (r : riscv) (grp : vmiRegGroupCP) :
  smpChild r = None -> regInfoBuilt r ->
  isGroupSupported r grp
  = Some ((getRegisters r true).1,
          groupPresent (concat (regBands r true)) grp).
Proof.
  intros Hc Hb.
  destruct (built_state r true Hc Hb) as (Hc1 & Ht1 & Hbands & _ & _ & _).
  pose proof (getNextRegister_build r VMIRIT_NORMAL Hc Hb) as Hfirst.
  change (bool_decide (VMIRIT_NORMAL = VMIRIT_NORMAL)) with true in Hfirst.
  set (r1 := (getRegisters r true).1) in *.
  unfold isGroupSupported.
  transitivity (isGroupSupportedLoop (S (length (newRegisters r true)))
                  r1 None grp).
  { cbn [isGroupSupportedLoop]. by rewrite Hfirst. }
  rewrite (isGroupSupportedLoop_built r1 grp Hc1 Ht1 _ 0 None).
  - by rewrite drop_0, Hbands.
  - by left.
  - lia.
  - rewrite Hbands, (newRegisters_terminated r true), length_app. lia.
Qed.

(** X7. On a processor without child, [isGroupSupported] reaches
    its verdict within the calls it is given, the verdict is [True]
    exactly when some descriptor of the normal list belongs to the group,
    and afterwards the normal list is in place. *)
Theorem isGroupSupported_decides (r : riscv) (grp : vmiRegGroupCP) :
  smpChild r = None -> regInfoBuilt r ->
  exists b,
    isGroupSupported r grp = Some ((getRegisters r true).1, b)
    /\ (b = true
        <-> exists e, e ∈ concat (regBands r true) /\ group e = grp).
Proof.
  intros Hc Hb. eexists. split; [by apply isGroupSupported_built|].
  unfold groupPresent. rewrite existsb_exists. split.
  - intros (e & He%list_elem_of_In & Hg%bool_decide_eq_true). by exists e.
  - intros (e & He & Hg). exists e.
    split; [by apply list_elem_of_In|by apply bool_decide_eq_true].
Qed.

End WalkProperties.

Section GroupWalkProperties.
Context {H : ModelHeaders} {C : Collaborators}.

Lemma isGroupSupported_again (r : riscv) (grp : vmiRegGroupCP) :
  smpChild r = None -> regInfoBuilt r ->
  isGroupSupported (getRegisters r true).1 grp
  = Some ((getRegisters r true).1,
          groupPresent (concat (regBands r true)) grp).
Proof.
  intros Hc Hb.
  destruct (built_state r true Hc Hb) as (Hc1 & _ & Hbands & Hb1 & _ & Hfix).
  rewrite (isGroupSupported_built _ grp Hc1 Hb1). by rewrite Hfix, Hbands.
Qed.

Lemma core_present (r : riscv) :
  groupPresent (concat (regBands r true)) (Some RV_RG_CORE) = true.
Proof.
  destruct (regBands_head r true) as (rest & ->). done.
Qed.

(** X8. On a processor without child, [getNextGroup] returns the
    first group after the one it is given (the first of all from null)
    to which some descriptor of the normal list belongs, and null when
    there is none; it never returns the unnamed last entry of [groups] nor
    a group without descriptor. From null it returns the core group, on
    every configuration. *)
Theorem getNextGroup_first_supported (r : riscv) (grp : vmiRegGroupCP) :
  smpChild r = None -> regInfoBuilt r ->
  (exists r',
      getNextGroup r grp
      = Some (r', head (List.filter
                          (fun g => groupPresent (concat (regBands r true))
                                      (Some g))
                          (seq (from_option S 0%nat grp)
                               (8 - from_option S 0%nat grp)))))
  /\ getNextGroup r None = Some ((getRegisters r true).1, Some RV_RG_CORE).
Proof.
  intros Hc Hb.
  pose proof (fun x => isGroupSupported_built r x Hc Hb) as Hr.
  pose proof (fun x => isGroupSupported_again r x Hc Hb) as Hr1.
  pose proof (core_present r) as Hcore.
  set (body := concat (regBands r true)) in *.
  set (r1 := (getRegisters r true).1) in *.
  split.
  - destruct grp as [g|]; [do 8 (try destruct g as [|g])|];
      unfold getNextGroup, groups;
      cbn [drop seq List.filter Nat.sub head from_option nextGroupScan
           notNull grp_name];
      repeat (first [rewrite Hr | rewrite Hr1];
              match goal with
              | |- context [groupPresent body (Some ?k)] =>
                  destruct (groupPresent body (Some k))
              end;
              cbn [drop seq List.filter Nat.sub head from_option
                   nextGroupScan notNull grp_name]);
      try (by eexists).
    rewrite drop_nil. by eexists.
  - unfold getNextGroup, RV_RG_CORE. rewrite Hr.
    by rewrite (Hcore : groupPresent body (@Some nat 0%nat) = true).
Qed.

(** *** The views of the gdb list *)

Lemma isCSRGroup_mode (m : nat) :
  (m <= 3)%nat -> isCSRGroup (RV_GROUP (RV_RG_U_CSR + m)%nat) = true.
Proof. intros Hm. by destruct m as [|[|[|[|m]]]]; [| | | |lia]. Qed.

Lemma gdb_bands (r : riscv) :
  concat (regBands r false)
  = gprEntries r false ++ [pcEntry r 32] ++ fprEntries r false
    ++ csrEntries r false.
Proof.
  unfold regBands. cbn [concat].
  change (vrEntries r false) with (@nil vmiRegInfo).
  change (isrEntries r false) with (@nil vmiRegInfo).
  change (gprNum r false) with 32%nat.
  by rewrite !app_nil_r.
Qed.

Lemma gdb_csr_groups (r : riscv) (e : vmiRegInfo) :
  (forall d, d ∈ riscvGetCSRDetails (configInfo r) false ->
             (cd_mode d <= 3)%nat) ->
  e ∈ csrEntries r false -> isCSRGroup (group e) = true.
Proof.
  intros Hmode. unfold csrEntries.
  intros (d & -> & Hd)%list_elem_of_fmap.
  apply isCSRGroup_mode. by apply Hmode.
Qed.

Lemma gdb_core_fp_groups (r : riscv) (e : vmiRegInfo) :
  e ∈ gprEntries r false ++ [pcEntry r 32] ++ fprEntries r false ->
  isCSRGroup (group e) = false.
Proof.
  unfold gprEntries, fprEntries.
  rewrite !elem_of_app, list_elem_of_singleton, !list_elem_of_fmap.
  by intros [(i & -> & _)|[->|(i & -> & _)]].
Qed.

(** X9. Given that the CSR enumerator reports privilege modes 0 to
    3, the 'g' packet view ([VMIRIT_GPACKET]) of a processor without
    child is the same on every configuration: the 32 general registers,
    the program counter and the 32 floating point registers, 65
    descriptors with [gdbIndex] 0, 1, ..., 64 in this order. *)
Theorem gpacket_view_layout (r : riscv) :
  smpChild r = None -> regInfoBuilt r ->
  (forall d, d ∈ riscvGetCSRDetails (configInfo r) false ->
             (cd_mode d <= 3)%nat) ->
  exists gs,
    registersOfView r VMIRIT_GPACKET = Some gs
    /\ gs = gprEntries r false ++ [pcEntry r 32] ++ fprEntries r false
    /\ gdbIndex <$> gs = N.of_nat <$> seq 0 65.
Proof.
  intros Hc Hb Hmode. eexists.
  rewrite (registersOfView_spec r _ Hc Hb).
  change (bool_decide (VMIRIT_GPACKET = VMIRIT_NORMAL)) with false.
  rewrite gdb_bands. split; [reflexivity|]. split.
  - rewrite !(assoc_L (++)), List.filter_app.
    rewrite filter_all, filter_none, app_nil_r; [done| |].
    + intros e He. simpl. by rewrite (gdb_csr_groups r e Hmode He).
    + intros e He. simpl. rewrite <- !(assoc_L (++)) in He.
      by rewrite (gdb_core_fp_groups r e He).
  - rewrite !(assoc_L (++)), List.filter_app.
    rewrite filter_all, filter_none, app_nil_r; [done| |].
    + intros e He. simpl. by rewrite (gdb_csr_groups r e Hmode He).
    + intros e He. simpl. rewrite <- !(assoc_L (++)) in He.
      by rewrite (gdb_core_fp_groups r e He).
Qed.

(** X10. Under the same condition the CSR view (any view other
    than the normal and the 'g' packet view) of a processor without child
    is the CSRs of the gdb list, one descriptor for each CSR the
    enumerator delivers, in the enumerator's order and with [gdbIndex]
    65 plus the CSR number ([Uns32]). *)
Theorem csr_view_layout (r : riscv) :
  smpChild r = None -> regInfoBuilt r ->
  (forall d, d ∈ riscvGetCSRDetails (configInfo r) false ->
             (cd_mode d <= 3)%nat) ->
  registersOfView r VMIRIT_PPACKET
  = Some (csrEntry r <$> riscvGetCSRDetails (configInfo r) false)
  /\ forall d, gdbIndex (csrEntry r d)
               = Uns32 (csr_csrNum (cd_attrs d) + RISCV_CSR0_INDEX)
               /\ userData (csrEntry r d) = Some (cd_attrs d).
Proof.
  intros Hc Hb Hmode. split; [|done].
  rewrite (registersOfView_spec r _ Hc Hb).
  change (bool_decide (VMIRIT_PPACKET = VMIRIT_NORMAL)) with false.
  rewrite gdb_bands. f_equal.
  rewrite !(assoc_L (++)), List.filter_app.
  rewrite filter_none, filter_all; [done| |].
  - intros e He. simpl. by rewrite (gdb_csr_groups r e Hmode He).
  - intros e He. simpl. rewrite <- !(assoc_L (++)) in He.
    by rewrite (gdb_core_fp_groups r e He).
Qed.

End GroupWalkProperties.

(** ** Program counter and debug mode accessors *)

Section PCProperties.
Context {H : ModelHeaders} {C : Collaborators}.

Lemma low_high_halves (b : N) :
  b mod 2 ^ 64 / 2 ^ 32 * 2 ^ 32 + b mod 2 ^ 32 = b mod 2 ^ 64.
Proof.
  assert (Hm : b mod 2 ^ 32 = b mod 2 ^ 64 mod 2 ^ 32).
  { change (2 ^ 64) with (2 ^ 32 * 2 ^ 32).
    by rewrite N.Div0.mod_mul_r, N.mul_comm, N.Div0.mod_add,
      N.Div0.mod_mod. }
  rewrite Hm, N.mul_comm. symmetry. by apply N.div_mod.
Qed.

(** X11. Writing the program counter from a buffer and reading it
    back into that buffer gives the buffer back (its eight bytes), except
    when the current mode is 32 bits wide and the architecture is not:
    then only the low four bytes come back and the rest is zero. *)
Theorem writePC_readPC (r : riscv) (buffer : N) :
  (readPC (writePC r buffer).2 buffer).2
  = if (riscvGetXlenMode r =? 32)
       && negb (riscvGetXlenArch (configInfo r) =? 32)
    then buffer mod 2 ^ 32 else buffer mod 2 ^ 64.
Proof.
  unfold readPC, writePC. simpl.
  assert (H32 : buffer mod 2 ^ 32 < 2 ^ 64).
  { pose proof (N.mod_upper_bound buffer (2 ^ 32)). lia. }
  destruct (riscvGetXlenMode r =? 32),
    (riscvGetXlenArch (configInfo r) =? 32); simpl.
  - rewrite (N.mod_small _ _ H32), N.Div0.mod_mod.
    apply low_high_halves.
  - by apply N.mod_small.
  - rewrite N.Div0.mod_mod.
    replace (buffer mod 2 ^ 64 mod 2 ^ 32) with (buffer mod 2 ^ 32);
      [apply low_high_halves|].
    change (2 ^ 64) with (2 ^ 32 * 2 ^ 32).
    by rewrite N.Div0.mod_mul_r, N.mul_comm, N.Div0.mod_add,
      N.Div0.mod_mod.
  - by rewrite N.Div0.mod_mod.
Qed.

(** X12. On a 32-bit architecture [readPC] stores the low 32 bits
    of the program counter in the low four bytes of the buffer and leaves
    the bytes above as they were; otherwise it stores the 64-bit program
    counter. [writePC] installs a program counter below 2^32 in 32-bit
    mode and below 2^64 otherwise, and changes nothing else on the
    processor. *)
Theorem readPC_writePC_width (r : riscv) (buffer : N) :
  (if riscvGetXlenArch (configInfo r) =? 32
   then (readPC r buffer).2 mod 2 ^ 32 = pc r mod 2 ^ 32
        /\ (readPC r buffer).2 / 2 ^ 32 = buffer mod 2 ^ 64 / 2 ^ 32
   else (readPC r buffer).2 = pc r mod 2 ^ 64)
  /\ pc (writePC r buffer).2
     < (if riscvGetXlenMode r =? 32 then 2 ^ 32 else 2 ^ 64)
  /\ set_pc (writePC r buffer).2 (pc r) = set_pc r (pc r).
Proof.
  unfold readPC, writePC. simpl. repeat split.
  - destruct (_ =? 32); simpl; [|done].
    assert (Hlt : pc r mod 2 ^ 64 mod 2 ^ 32 < 2 ^ 32)
      by by apply N.mod_upper_bound.
    split.
    + rewrite N.add_comm, N.Div0.mod_add.
      rewrite N.Div0.mod_mod.
      change (2 ^ 64) with (2 ^ 32 * 2 ^ 32).
      by rewrite N.Div0.mod_mul_r, N.mul_comm, N.Div0.mod_add,
        N.Div0.mod_mod.
    + rewrite N.add_comm, N.div_add by done.
      by rewrite N.div_small.
  - destruct (_ =? 32); by apply N.mod_upper_bound.
Qed.

Lemma low_bit (b : N) : negb (N.land (b mod 2 ^ 8) 1 =? 0) = N.odd b.
Proof.
  change 1 with (N.ones 1) at 1. rewrite N.land_ones.
  change (2 ^ 8) with (2 ^ 1 * 2 ^ 7).
  rewrite N.Div0.mod_mul_r, N.mul_comm, N.Div0.mod_add, N.Div0.mod_mod.
  change (2 ^ 1) with 2. rewrite <- N.bit0_mod, N.bit0_odd.
  by destruct (N.odd b).
Qed.

(** X13. [writeDM] and [writeDMStall] pass on the lowest bit of the
    buffer and nothing else of it: the flag handed to [riscvSetDM]
    ([riscvSetDMStall]) is set exactly when the buffer is odd, so two
    buffers of the same parity have the same effect. *)
Theorem writeDM_low_bit (r : riscv) (buffer : N) :
  writeDM r buffer = (true, riscvSetDM r (N.odd buffer))
  /\ writeDMStall r buffer = (true, riscvSetDMStall r (N.odd buffer))
  /\ forall k, writeDM r (buffer + 2 * k) = writeDM r buffer
               /\ writeDMStall r (buffer + 2 * k) = writeDMStall r buffer.
Proof.
  assert (Hdm : forall b, writeDM r b = (true, riscvSetDM r (N.odd b))).
  { intros b. unfold writeDM. by rewrite low_bit. }
  assert (Hst : forall b,
             writeDMStall r b = (true, riscvSetDMStall r (N.odd b))).
  { intros b. unfold writeDMStall. by rewrite low_bit. }
  split; [apply Hdm|]. split; [apply Hst|].
  intros k. rewrite !Hdm, !Hst.
  by rewrite N.odd_add_mul_2.
Qed.

End PCProperties.

(** ** Integration support registers and callbacks in the lists *)

Section DescriptorProperties.
Context {H : ModelHeaders} {C : Collaborators}.

Lemma isrExcluded_monotone (r r' : riscv) (e : isrDetails) :
  N.land (arch (configInfo r)) (arch (configInfo r'))
  = arch (configInfo r) ->
  debug_mode (configInfo r) <= debug_mode (configInfo r') ->
  isrExcluded r e = false -> isrExcluded r' e = false.
Proof.
  intros Harch Hdm. unfold isrExcluded.
  rewrite !orb_false_iff, !negb_false_iff, !N.eqb_eq, !N.ltb_ge.
  intros [Ha Hd]. split; [|lia].
  by rewrite <- Ha at 1; rewrite <- N.land_assoc, Harch.
Qed.

(** X14. Enabling more of the architecture or a higher debug mode
    never hides an integration support register: if every architecture
    bit of one configuration is set in another and the debug mode of the
    other is at least as high, every entry the traversal yields for the
    first it yields for the other. *)
Theorem visibleISRs_monotone (r r' : riscv) :
  N.land (arch (configInfo r)) (arch (configInfo r'))
  = arch (configInfo r) ->
  debug_mode (configInfo r) <= debug_mode (configInfo r') ->
  exists ys ys',
    visibleISRs r true = Some ys /\ visibleISRs r' true = Some ys'
    /\ forall i, i ∈ ys -> i ∈ ys'.
Proof.
  intros Harch Hdm. do 2 eexists.
  split; [apply visibleISRs_normal|]. split; [apply visibleISRs_normal|].
  intros i. rewrite !keptIdx_elem.
  intros (Hle & e & He & Hk). split; [done|]. exists e. split; [done|].
  apply negb_true_iff. apply negb_true_iff in Hk.
  by apply (isrExcluded_monotone r r').
Qed.

Lemma isrEntries_elem (r : riscv) (normal : bool) (e : vmiRegInfo) :
  e ∈ isrEntries r normal ->
  normal = true
  /\ exists i d, (i < 4)%nat /\ isRegs !! i = Some d /\ e = isrEntry r d
                 /\ isrExcluded r d = false.
Proof.
  unfold isrEntries. destruct normal.
  - rewrite visibleISRs_normal. unfold default, from_option, id.
    intros (i & -> & Hi)%list_elem_of_fmap.
    pose proof (keptIdx_bounds _ _ _ _ Hi) as Hb. simpl in Hb.
    apply keptIdx_elem in Hi as (_ & d & Hd & Hk).
    rewrite Nat.sub_0_r in Hd. apply negb_true_iff in Hk.
    split; [done|]. exists i, d.
    assert (Hd' : isRegs !! i = Some d).
    { rewrite isRegs_terminated. by apply lookup_app_l_Some. }
    rewrite Hd'. repeat split; try done; lia.
  - rewrite visibleISRs_gdb. by intros ?%elem_of_nil.
Qed.

Ltac cb_case :=
  repeat match goal with |- _ /\ _ => split end;
  try (intros [?|?]; simplify_eq/=; done);
  try (intros ?; simplify_eq/=; done);
  try (right; left; done);
  try (right; right; done);
  try done.

(** X15. In either list each callback sits only where it belongs:
    [readCSR] and [writeCSR] only on descriptors of the CSR run, which
    carry the attributes of their CSR in [userData]; [readPC] and
    [writePC] only on the program counter; [writeDM] only on the
    integration register [DM] and [writeDMStall] only on [DMStall]. A
    descriptor outside the CSR run that has no raw storage has both
    callbacks. *)
Theorem callbacks_by_kind (r : riscv) (normal : bool) (e : vmiRegInfo) :
  e ∈ concat (regBands r normal) ->
  ((readCB e = Some CB_readCSR \/ writeCB e = Some CB_writeCSR) ->
     e ∈ csrEntries r normal /\ getCSRAttrs e <> None)
  /\ ((readCB e = Some CB_readPC \/ writeCB e = Some CB_writePC) ->
        e = pcEntry r (gprNum r normal))
  /\ (writeCB e = Some CB_writeDM -> name e = Some "DM")
  /\ (writeCB e = Some CB_writeDMStall -> name e = Some "DMStall")
  /\ (e ∈ csrEntries r normal
      \/ raw e <> VMI_NOREG
      \/ (readCB e <> None /\ writeCB e <> None)).
Proof.
  unfold regBands. cbn [concat]. rewrite app_nil_r, !elem_of_app.
  rewrite list_elem_of_singleton.
  intros [Hin|[->|[Hin|[Hin|[Hin|Hin]]]]].
  - unfold gprEntries in Hin.
    apply list_elem_of_fmap in Hin as (i & -> & _). cb_case.
  - cb_case.
  - unfold fprEntries in Hin.
    apply list_elem_of_fmap in Hin as (i & -> & _). cb_case.
  - unfold vrEntries in Hin.
    apply list_elem_of_fmap in Hin as (i & -> & _). cb_case.
  - unfold csrEntries in Hin.
    apply list_elem_of_fmap in Hin as (d & -> & Hd).
    assert (Hcsr : csrEntry r d ∈ csrEntries r normal)
      by by apply list_elem_of_fmap_2.
    destruct (cd_rdRaw d) eqn:Hrd, (cd_wrRaw d) eqn:Hwr;
      repeat match goal with |- _ /\ _ => split end;
      simpl; rewrite ?Hrd, ?Hwr; try done; try (by intros [|]);
      by left.
  - apply isrEntries_elem in Hin as (_ & i & d & Hi & Hd & -> & _).
    destruct i as [|[|[|[|i]]]]; [| | | |lia];
      injection Hd as <-; cb_case.
Qed.

End DescriptorProperties.

(** ** Uniqueness of [gdbIndex] *)

Section IndexProperties.
Context {H : ModelHeaders} {C : Collaborators}.

Lemma keptIdx_NoDup {A} (keep : A -> bool) (l : list A) (i : nat) :
  NoDup (keptIdx keep l i).
Proof.
  revert i. induction l as [|e l IH]; intros i; simpl; [constructor|].
  destruct (keep e); [|apply IH].
  apply NoDup_cons. split; [|apply IH].
  intros Hin%keptIdx_bounds. lia.
Qed.

Lemma fmap_elem_range {A} (f : A -> N) (l : list A) (P : N -> Prop) :
  (forall e, e ∈ l -> P (f e)) -> forall x, x ∈ f <$> l -> P x.
Proof.
  intros HP x (e & -> & He)%list_elem_of_fmap. by apply HP.
Qed.

(** X16. Given that the CSR enumerator delivers each CSR number
    once and that CSR numbers are 12-bit (and that [V0]+[VREG_NUM] fits
    [Uns32]), no two descriptors of a register list have the same
    [gdbIndex]: the index identifies the register within its list. *)
Theorem gdbIndex_unique (r : riscv) (normal : bool) :
  (forall d, d ∈ riscvGetCSRDetails (configInfo r) normal ->
             csr_csrNum (cd_attrs d) < 4096) ->
  NoDup ((fun d => csr_csrNum (cd_attrs d))
           <$> riscvGetCSRDetails (configInfo r) normal) ->
  N.of_nat VREG_NUM + RISCV_V0_INDEX <= 2 ^ 32 ->
  newRegisters r normal = concat (regBands r normal) ++ [zeroRegInfo]
  /\ NoDup (gdbIndex <$> concat (regBands r normal)).
Proof.
  intros Hcsr Hnd Hv. split; [apply newRegisters_terminated|].
  assert (Hg : (gprNum r normal <= 32)%nat)
    by (destruct (gprNum_cases r normal); lia).
  pose proof (fprNum_le r normal) as Hf.
  pose proof (vrNum_le r normal) as Hvr.
  pose proof (pc_band r normal) as Hpc.
  pose proof (fmap_elem_range gdbIndex _
                (fun x => x < N.of_nat (gprNum r normal))
                (gpr_band r normal)) as HG.
  pose proof (fmap_elem_range gdbIndex _
                (fun x => RISCV_FPR0_INDEX <= x < RISCV_FPR0_INDEX + 32)
                (fpr_band r normal)) as HF.
  pose proof (fmap_elem_range gdbIndex _
                (fun x => RISCV_V0_INDEX <= x
                          < RISCV_V0_INDEX + N.of_nat VREG_NUM)
                (fun e => vr_band r normal e Hv)) as HV.
  pose proof (fmap_elem_range gdbIndex _
                (fun x => RISCV_ISR0_INDEX <= x < RISCV_ISR0_INDEX + 4)
                (isr_band r normal)) as HI.
  assert (HC : forall x, x ∈ gdbIndex <$> csrEntries r normal ->
                         65 <= x < 65 + 4096).
  { apply fmap_elem_range. unfold csrEntries.
    intros e (d & -> & Hd)%list_elem_of_fmap.
    rewrite (csr_band r d (Hcsr d Hd)). unfold RISCV_CSR0_INDEX.
    specialize (Hcsr d Hd). lia. }
  unfold RISCV_FPR0_INDEX, RISCV_V0_INDEX, RISCV_ISR0_INDEX in *.
  unfold regBands. cbn [concat]. rewrite app_nil_r, !fmap_app.
  change (gdbIndex <$> [pcEntry r (gprNum r normal)])
    with [gdbIndex (pcEntry r (gprNum r normal))].
  rewrite Hpc.
  repeat (apply NoDup_app; split; [|split]).
  - unfold gprEntries. rewrite <- list_fmap_compose.
    apply NoDup_fmap_2_strong; [|apply NoDup_seq].
    intros x y Hx%elem_of_seq Hy%elem_of_seq. simpl. unfold Uns32.
    rewrite !N.mod_small; lia.
  - intros x Hx. rewrite !elem_of_app, list_elem_of_singleton.
    intros [->|[Hx'|[Hx'|[Hx'|Hx']]]];
      apply HG in Hx;
      first [apply HF in Hx' | apply HV in Hx' | apply HC in Hx'
            | apply HI in Hx' | idtac]; lia.
  - apply NoDup_singleton.
  - intros x ->%list_elem_of_singleton. rewrite !elem_of_app.
    intros [Hx'|[Hx'|[Hx'|Hx']]];
      first [apply HF in Hx' | apply HV in Hx' | apply HC in Hx'
            | apply HI in Hx']; lia.
  - unfold fprEntries. rewrite <- list_fmap_compose.
    apply NoDup_fmap_2_strong; [|apply NoDup_seq].
    intros x y Hx%elem_of_seq Hy%elem_of_seq. simpl. unfold Uns32.
    rewrite !N.mod_small; unfold RISCV_FPR0_INDEX; lia.
  - intros x Hx. rewrite !elem_of_app.
    intros [Hx'|[Hx'|Hx']];
      apply HF in Hx;
      first [apply HV in Hx' | apply HC in Hx' | apply HI in Hx']; lia.
  - unfold vrEntries. rewrite <- list_fmap_compose.
    apply NoDup_fmap_2_strong; [|apply NoDup_seq].
    intros x y Hx%elem_of_seq Hy%elem_of_seq. simpl. unfold Uns32.
    rewrite !N.mod_small; unfold RISCV_V0_INDEX; lia.
  - intros x Hx. rewrite !elem_of_app.
    intros [Hx'|Hx'];
      apply HV in Hx;
      first [apply HC in Hx' | apply HI in Hx']; lia.
  - unfold csrEntries. rewrite <- list_fmap_compose.
    change (gdbIndex ∘ csrEntry r)
      with ((fun n => Uns32 (n + RISCV_CSR0_INDEX))
              ∘ (fun d => csr_csrNum (cd_attrs d))).
    rewrite list_fmap_compose.
    apply NoDup_fmap_2_strong; [|exact Hnd].
    intros x y (d & -> & Hd)%list_elem_of_fmap
      (d' & -> & Hd')%list_elem_of_fmap.
    specialize (Hcsr d Hd) as Hlt. specialize (Hcsr d' Hd') as Hlt'.
    unfold Uns32, RISCV_CSR0_INDEX. rewrite !N.mod_small; lia.
  - intros x Hx Hx'. apply HC in Hx. apply HI in Hx'. lia.
  - unfold isrEntries. destruct normal.
    + rewrite visibleISRs_normal. unfold default, from_option, id.
      rewrite <- list_fmap_compose.
      apply NoDup_fmap_2_strong; [|apply keptIdx_NoDup].
      intros x y Hx%keptIdx_bounds Hy%keptIdx_bounds.
      simpl in Hx, Hy.
      destruct x as [|[|[|[|x]]]]; [| | | |lia];
        destruct y as [|[|[|[|y]]]]; try lia; by vm_compute.
    + rewrite visibleISRs_gdb. constructor.
Qed.

End IndexProperties.

(** ** Counts of the views and supported groups *)

Section SupportProperties.
Context {H : ModelHeaders} {C : Collaborators}.

Lemma regBands_length (r : riscv) (normal : bool) :
  length (concat (regBands r normal)) = regNum r normal.
Proof.
  pose proof (newRegisters_length r normal) as Hlen.
  rewrite newRegisters_terminated, length_app in Hlen.
  change (length [zeroRegInfo]) with 1%nat in Hlen. lia.
Qed.

(** X17. What [getRegisters] counts is what the walks yield: on a
    processor without child the unrestricted view yields [regNum]
    descriptors of the normal list, and the 'g' packet view and the CSR
    view together yield [regNum] descriptors of the gdb list, no
    descriptor being yielded by both. *)
Theorem view_counts (r : riscv) :
  smpChild r = None -> regInfoBuilt r ->
  exists gs ps ns,
    registersOfView r VMIRIT_GPACKET = Some gs
    /\ registersOfView r VMIRIT_PPACKET = Some ps
    /\ registersOfView r VMIRIT_NORMAL = Some ns
    /\ length ns = regNum r true
    /\ (length gs + length ps = regNum r false)%nat
    /\ (forall e, e ∈ gs -> e ∉ ps).
Proof.
  intros Hc Hb. do 3 eexists.
  rewrite !registersOfView_spec by done.
  repeat apply conj; try reflexivity.
  - change (bool_decide (VMIRIT_NORMAL = VMIRIT_NORMAL)) with true.
    rewrite filter_all; [apply regBands_length|done].
  - rewrite <- length_app.
    change (bool_decide (VMIRIT_GPACKET = VMIRIT_NORMAL)) with false.
    change (bool_decide (VMIRIT_PPACKET = VMIRIT_NORMAL)) with false.
    rewrite <- (regBands_length r false).
    apply Permutation_length.
    apply (filter_split_perm (fun e => isCSRGroup (group e))).
  - intros e [_ He]%list_elem_of_In%List.filter_In
      [_ He']%list_elem_of_In%List.filter_In.
    simpl in He, He'. by rewrite He' in He.
Qed.

Lemma existsb_filter {A} (P : A -> bool) (l : list A) :
  existsb P l = match List.filter P l with [] => false | _ => true end.
Proof.
  induction l as [|x l IH]; simpl; [done|]. by destruct (P x).
Qed.

Lemma float_body (r : riscv) (normal : bool) :
  List.filter isFloatReg (concat (regBands r normal)) = fprEntries r normal.
Proof.
  rewrite <- float_run, newRegisters_terminated, List.filter_app.
  change (List.filter isFloatReg [zeroRegInfo]) with (@nil vmiRegInfo).
  by rewrite app_nil_r.
Qed.

Lemma vector_body (r : riscv) (normal : bool) :
  List.filter isVectorReg (concat (regBands r normal))
  = vrEntries r normal.
Proof.
  rewrite <- vector_run, newRegisters_terminated, List.filter_app.
  change (List.filter isVectorReg [zeroRegInfo]) with (@nil vmiRegInfo).
  by rewrite app_nil_r.
Qed.

Lemma commercial_visible (r : riscv) :
  isrEntry r (default zeroISR (isRegs !! 3%nat)) ∈ isrEntries r true.
Proof.
  unfold isrEntries. rewrite visibleISRs_normal.
  apply list_elem_of_fmap. exists 3%nat. split; [done|].
  unfold default at 1. unfold from_option, id.
  apply keptIdx_elem.
  split; [lia|]. eexists. split; [reflexivity|].
  unfold isrExcluded. simpl.
  replace (debug_mode (configInfo r) <? 0) with false; [done|].
  symmetry. apply N.ltb_ge. lia.
Qed.

(** X18. Which groups a processor without child reports: the core
    group and the integration support group on every configuration (the
    register [commercial] is always there); the floating point group
    exactly when [D] or [F] is present; the vector group exactly when [V]
    is present and there are vector registers. *)
Theorem supported_groups (r : riscv) :
  smpChild r = None -> regInfoBuilt r ->
  isGroupSupported r (RV_GROUP RV_RG_CORE)
  = Some ((getRegisters r true).1, true)
  /\ isGroupSupported r (RV_GROUP RV_RG_INTEGRATION)
     = Some ((getRegisters r true).1, true)
  /\ isGroupSupported r (RV_GROUP RV_RG_FP)
     = Some ((getRegisters r true).1,
             negb (N.land (arch (configInfo r)) ISA_DF =? 0))
  /\ isGroupSupported r (RV_GROUP RV_RG_V)
     = Some ((getRegisters r true).1,
             negb (N.land (arch (configInfo r)) ISA_V =? 0)
             && negb (bool_decide (VREG_NUM = 0%nat))).
Proof.
  intros Hc Hb. rewrite !(isGroupSupported_built r _ Hc Hb).
  repeat split; f_equal; f_equal.
  - apply core_present.
  - unfold groupPresent. apply existsb_exists.
    exists (isrEntry r (default zeroISR (isRegs !! 3%nat))).
    split; [|done]. apply list_elem_of_In.
    unfold regBands. cbn [concat]. rewrite !elem_of_app.
    do 5 right. left. apply commercial_visible.
  - unfold groupPresent.
    change (fun e => bool_decide (group e = RV_GROUP RV_RG_FP))
      with isFloatReg.
    rewrite existsb_filter, float_body. unfold fprEntries, fprNum.
    simpl. by destruct (_ =? 0).
  - unfold groupPresent.
    change (fun e => bool_decide (group e = RV_GROUP RV_RG_V))
      with isVectorReg.
    rewrite existsb_filter, vector_body. unfold vrEntries, vrNum.
    simpl. destruct (_ =? 0); simpl; [done|].
    case_bool_decide as Hz; [by rewrite Hz|].
    by destruct VREG_NUM.
Qed.

End SupportProperties.

(** ** The concrete variant, further *)

Section ConcreteVariantFurther.
#[local] Existing Instance exHeaders.
#[local] Existing Instance exCollaborators.

Lemma exCSRs_modes (r : riscv) (normal : bool) (d : riscvCSRDetails) :
  d ∈ riscvGetCSRDetails (configInfo r) normal -> (cd_mode d <= 3)%nat.
Proof.
  simpl. unfold exCSRs.
  intros [->|[->|[]%elem_of_nil]%elem_of_cons]%elem_of_cons; simpl; lia.
Defined.

Lemma exCSRs_distinct (r : riscv) (normal : bool) :
  NoDup ((fun d => csr_csrNum (cd_attrs d))
           <$> riscvGetCSRDetails (configInfo r) normal).
Proof.
  simpl. apply (bool_decide_unpack _). by vm_compute.
Defined.

Lemma getRegisters_terminated_witness :
  regInfoBuilt exRV32IA
  /\ exists t,
      regInfo (getRegisters exRV32IA true).1 true = Some t
      /\ length t = 38%nat
      /\ t !! 37%nat = Some zeroRegInfo.
Proof.
  split; [apply exProcessor_built|].
  destruct (getRegisters_terminated exRV32IA true (exProcessor_built _ _))
    as (t & Ht & Hlen & Hz & _).
  exists t. split; [exact Ht|]. split; [exact Hlen|exact Hz].
Defined.

Lemma regInfoBuilt_kept_witness :
  regInfoBuilt exRV32IA
  /\ regInfoBuilt (getRegisters exRV32IA false).1
  /\ regInfoBuilt (riscvFreeRegInfo exRV32IA).
Proof.
  split; [apply exProcessor_built|].
  destruct (regInfoBuilt_kept exRV32IA (exProcessor_built _ _))
    as (Hg & _ & Hf & _).
  split; [exact (Hg false)|exact Hf].
Defined.

Lemma getRegisters_after_free_witness :
  regInfoBuilt exRV32IFD
  /\ exists t,
      regInfo (getRegisters exRV32IFD false).1 false = Some t
      /\ regInfo (getRegisters
                    (riscvFreeRegInfo (getRegisters exRV32IFD false).1)
                    false).1 false = Some t.
Proof.
  split; [apply exProcessor_built|].
  destruct (getRegisters_after_free exRV32IFD false (exProcessor_built _ _))
    as (t & Ht & _ & _ & Hagain).
  exists t. split; [exact Ht|exact Hagain].
Defined.

Lemma getNextRegister_advances_witness :
  (getNextRegister (getRegisters exRV32IA true).1
     (Some (regHead true)) VMIRIT_PPACKET).2
  = Some (Build_vmiRegInfoCP true 33)
  /\ (0 < 33)%nat
  /\ forall j, (0 < j < 33)%nat ->
       exists e, regAt (getRegisters exRV32IA true).1
                   (Build_vmiRegInfoCP true j) = Some e
                 /\ name e <> None
                 /\ isRegVisible e VMIRIT_PPACKET = false.
Proof.
  assert (Hq : (getNextRegister (getRegisters exRV32IA true).1
                  (Some (regHead true)) VMIRIT_PPACKET).2
               = Some (Build_vmiRegInfoCP true 33)) by (by vm_compute).
  split; [exact Hq|].
  destruct (getNextRegister_advances (getRegisters exRV32IA true).1
              (regHead true) VMIRIT_PPACKET) as [_ Hadv].
  destruct (Hadv _ Hq) as (_ & Hlt & _ & Hbetween).
  split; [exact Hlt|exact Hbetween].
Defined.

Lemma isGroupSupported_decides_witness :
  smpChild exRV32IA = None /\ regInfoBuilt exRV32IA
  /\ exists b,
      isGroupSupported exRV32IA (RV_GROUP RV_RG_M_CSR)
      = Some ((getRegisters exRV32IA true).1, b)
      /\ (b = true
          <-> exists e, e ∈ concat (regBands exRV32IA true)
                        /\ group e = RV_GROUP RV_RG_M_CSR).
Proof.
  split; [reflexivity|]. split; [apply exProcessor_built|].
  apply (isGroupSupported_decides exRV32IA _ eq_refl
           (exProcessor_built _ _)).
Defined.

Lemma getNextGroup_first_supported_witness :
  smpChild exRV32IA = None /\ regInfoBuilt exRV32IA
  /\ getNextGroup exRV32IA None
     = Some ((getRegisters exRV32IA true).1, Some RV_RG_CORE)
  /\ exists r', getNextGroup exRV32IA (Some RV_RG_CORE)
                = Some (r', Some RV_RG_U_CSR).
Proof.
  split; [reflexivity|]. split; [apply exProcessor_built|].
  destruct (getNextGroup_first_supported exRV32IA None eq_refl
              (exProcessor_built _ _)) as [_ Hfirst].
  destruct (getNextGroup_first_supported exRV32IA (Some RV_RG_CORE)
              eq_refl (exProcessor_built _ _)) as [(r' & Hnext) _].
  split; [exact Hfirst|]. exists r'. exact Hnext.
Defined.

Lemma gpacket_view_layout_witness :
  smpChild exRV32IA = None /\ regInfoBuilt exRV32IA
  /\ (forall d, d ∈ riscvGetCSRDetails (configInfo exRV32IA) false ->
                (cd_mode d <= 3)%nat)
  /\ exists gs,
      registersOfView exRV32IA VMIRIT_GPACKET = Some gs
      /\ gdbIndex <$> gs = N.of_nat <$> seq 0 65.
Proof.
  split; [reflexivity|]. split; [apply exProcessor_built|].
  split; [apply exCSRs_modes|].
  destruct (gpacket_view_layout exRV32IA eq_refl (exProcessor_built _ _)
              (exCSRs_modes _ _)) as (gs & Hgs & _ & Hidx).
  exists gs. split; [exact Hgs|exact Hidx].
Defined.

Lemma csr_view_layout_witness :
  smpChild exRV32IA = None /\ regInfoBuilt exRV32IA
  /\ (forall d, d ∈ riscvGetCSRDetails (configInfo exRV32IA) false ->
                (cd_mode d <= 3)%nat)
  /\ registersOfView exRV32IA VMIRIT_PPACKET
     = Some (csrEntry exRV32IA <$> exCSRs).
Proof.
  split; [reflexivity|]. split; [apply exProcessor_built|].
  split; [apply exCSRs_modes|].
  apply (csr_view_layout exRV32IA eq_refl (exProcessor_built _ _)
           (exCSRs_modes _ _)).
Defined.

Lemma visibleISRs_monotone_witness :
  N.land (arch (configInfo exRV32IFD)) (arch (configInfo (exProcessor 0x129 None)))
  = arch (configInfo exRV32IFD)
  /\ debug_mode (configInfo exRV32IFD)
     <= debug_mode (configInfo (exProcessor 0x129 None))
  /\ exists ys ys',
      visibleISRs exRV32IFD true = Some ys
      /\ visibleISRs (exProcessor 0x129 None) true = Some ys'
      /\ forall i, i ∈ ys -> i ∈ ys'.
Proof.
  assert (Ha : N.land (arch (configInfo exRV32IFD))
                 (arch (configInfo (exProcessor 0x129 None)))
               = arch (configInfo exRV32IFD)) by reflexivity.
  assert (Hd : debug_mode (configInfo exRV32IFD)
               <= debug_mode (configInfo (exProcessor 0x129 None)))
    by (by vm_compute).
  split; [exact Ha|]. split; [exact Hd|].
  apply (visibleISRs_monotone exRV32IFD (exProcessor 0x129 None) Ha Hd).
Defined.

Lemma callbacks_by_kind_witness :
  pcEntry exRV32IA 32 ∈ concat (regBands exRV32IA true)
  /\ (pcEntry exRV32IA 32 ∈ csrEntries exRV32IA true
      \/ raw (pcEntry exRV32IA 32) <> VMI_NOREG
      \/ (readCB (pcEntry exRV32IA 32) <> None
          /\ writeCB (pcEntry exRV32IA 32) <> None)).
Proof.
  assert (Hin : pcEntry exRV32IA 32 ∈ concat (regBands exRV32IA true)).
  { unfold regBands. cbn [concat]. apply elem_of_app. right.
    apply elem_of_app. left. apply list_elem_of_singleton. reflexivity. }
  split; [exact Hin|].
  destruct (callbacks_by_kind exRV32IA true _ Hin) as (_ & _ & _ & _ & Hacc).
  exact Hacc.
Defined.

Lemma gdbIndex_unique_witness :
  (forall d, d ∈ riscvGetCSRDetails (configInfo exRV32IA) true ->
             csr_csrNum (cd_attrs d) < 4096)
  /\ NoDup ((fun d => csr_csrNum (cd_attrs d))
              <$> riscvGetCSRDetails (configInfo exRV32IA) true)
  /\ N.of_nat VREG_NUM + RISCV_V0_INDEX <= 2 ^ 32
  /\ NoDup (gdbIndex <$> concat (regBands exRV32IA true)).
Proof.
  assert (Hv : N.of_nat VREG_NUM + RISCV_V0_INDEX <= 2 ^ 32)
    by (by vm_compute).
  split; [apply exCSRs_numbers|]. split; [apply exCSRs_distinct|].
  split; [exact Hv|].
  apply (gdbIndex_unique exRV32IA true (exCSRs_numbers _ _)
           (exCSRs_distinct _ _) Hv).
Defined.

Lemma view_counts_witness :
  smpChild exRV32IA = None /\ regInfoBuilt exRV32IA
  /\ exists gs ps ns,
      registersOfView exRV32IA VMIRIT_GPACKET = Some gs
      /\ registersOfView exRV32IA VMIRIT_PPACKET = Some ps
      /\ registersOfView exRV32IA VMIRIT_NORMAL = Some ns
      /\ length ns = 37%nat
      /\ (length gs + length ps = 67)%nat.
Proof.
  split; [reflexivity|]. split; [apply exProcessor_built|].
  destruct (view_counts exRV32IA eq_refl (exProcessor_built _ _))
    as (gs & ps & ns & Hg & Hp & Hn & Hln & Hlg & _).
  exists gs, ps, ns.
  split; [exact Hg|]. split; [exact Hp|]. split; [exact Hn|].
  split; [exact Hln|exact Hlg].
Defined.

Lemma supported_groups_witness :
  smpChild exRV32IA = None /\ regInfoBuilt exRV32IA
  /\ isGroupSupported exRV32IA (RV_GROUP RV_RG_FP)
     = Some ((getRegisters exRV32IA true).1, false)
  /\ isGroupSupported exRV32IA (RV_GROUP RV_RG_INTEGRATION)
     = Some ((getRegisters exRV32IA true).1, true).
Proof.
  split; [reflexivity|]. split; [apply exProcessor_built|].
  destruct (supported_groups exRV32IA eq_refl (exProcessor_built _ _))
    as (_ & Hi & Hf & _).
  split; [exact Hf|exact Hi].
Defined.

End ConcreteVariantFurther.
